(** * VideoMind front-end: request plumbing and form logic

    A shallow embedding of the JavaScript sources of the repository:

    - [services/api.js]: the axios client wrapper and the accessors;
    - [App.jsx]: the page-level component of the new front-end;
    - [components/AnalysisResults]: tabbed viewer, transcript search, chat;
    - [components/VideoAnalyzer]: URL form, validation, language selector;
    - [frontend/src/App.jsx]: the older single-file front-end.

    JavaScript strings are sequences of UTF-16 code units, JSON payloads are
    values of a small dynamic type, and every handler is a function from the
    component state and the list of HTTP requests issued so far to the new
    state and the extended list.  Each handler is run to completion: the
    interleaving of overlapping asynchronous calls and console output are
    outside the model. *)

From Stdlib Require Import List NArith ZArith Bool String Ascii Lia.
From Stdlib Require Import DecimalString.
Import ListNotations.

Set Implicit Arguments.
Set Warnings "-register-all".

(* ===================================================================== *)
(** * JavaScript data *)
(* ===================================================================== *)

Module JS.

(** A string is the list of its UTF-16 code units. *)
Definition code_unit := N.
Definition jsstring := list code_unit.

(** ASCII literals of the sources. *)
Definition js (s : string) : jsstring :=
  map N_of_ascii (list_ascii_of_string s).
Arguments js s%_string.

Fixpoint str_eqb (a b : jsstring) : bool :=
  match a, b with
  | [], [] => true
  | x :: a', y :: b' => N.eqb x y && str_eqb a' b'
  | _, _ => false
  end.

(** Dynamic values: what [JSON.parse] produces, plus [undefined].  Numbers
    are the integral ones. *)
Inductive value :=
| VUndefined
| VNull
| VBool (b : bool)
| VNum (n : Z)
| VStr (s : jsstring)
| VArr (items : list value)
| VObj (fields : list (jsstring * value)).

(** ToBoolean. *)
Definition truthy (v : value) : bool :=
  match v with
  | VUndefined | VNull => false
  | VBool b => b
  | VNum n => negb (Z.eqb n 0)
  | VStr s => match s with [] => false | _ => true end
  | VArr _ | VObj _ => true
  end.

(** [a || b]. *)
Definition or_else (a b : value) : value := if truthy a then a else b.

(** [a === s] for a string [s]. *)
Definition strict_eq_str (a : value) (s : jsstring) : bool :=
  match a with VStr t => str_eqb t s | _ => false end.

Fixpoint lookup (fields : list (jsstring * value)) (k : jsstring) : value :=
  match fields with
  | [] => VUndefined
  | (k', v) :: rest => if str_eqb k' k then v else lookup rest k
  end.

(** [v?.k] for the data keys the program reads (none of them is a property
    of a built-in prototype, so primitives and arrays answer [undefined]). *)
Definition get (v : value) (k : jsstring) : value :=
  match v with
  | VObj fields => lookup fields k
  | _ => VUndefined
  end.

(** [null] or [undefined]. *)
Definition nullish (v : value) : bool :=
  match v with VUndefined | VNull => true | _ => false end.

(** Outcome of an evaluation that may throw a value of type [E]. *)
Inductive result (E A : Type) :=
| Ok (a : A)
| Throw (e : E).
Arguments Ok {E A} a.
Arguments Throw {E A} e.

(** Errors raised by the runtime itself, and the one React raises for a
    child it cannot show (Objects are not valid as a React child). *)
Inductive runtime_error := TypeError | SyntaxError | InvalidChild.

(** [v.k]: raises on [null] and [undefined]. *)
Definition prop (v : value) (k : jsstring) : result runtime_error value :=
  match v with
  | VUndefined | VNull => Throw TypeError
  | _ => Ok (get v k)
  end.

(** Default parameter values apply exactly when the argument is
    [undefined] (omitted or passed as such). *)
Definition default (d a : value) : value :=
  match a with VUndefined => d | _ => a end.

(** WhiteSpace and LineTerminator code units, as [String.prototype.trim]
    strips them. *)
Definition is_space (c : code_unit) : bool :=
  ((9 <=? c) && (c <=? 13) || (c =? 32) || (c =? 160) || (c =? 5760)
   || (8192 <=? c) && (c <=? 8202) || (c =? 8232) || (c =? 8233)
   || (c =? 8239) || (c =? 8287) || (c =? 12288) || (c =? 65279))%N.

Fixpoint trim_start (s : jsstring) : jsstring :=
  match s with
  | c :: s' => if is_space c then trim_start s' else s
  | [] => []
  end.

Definition trim (s : jsstring) : jsstring :=
  rev (trim_start (rev (trim_start s))).

(** Decimal rendering of a non-negative integer, as a template literal
    prints it. *)
Definition decimal (n : N) : jsstring :=
  js (NilZero.string_of_uint (N.to_uint n)).

(** Whether an object has a property of its own under [k]. *)
Definition has_own (fields : list (jsstring * value)) (k : jsstring) : bool :=
  existsb (fun field => str_eqb (fst field) k) fields.

Section Conversion.

(** Number::toString, on the integers. *)
Variable NumberToString : Z -> jsstring.

(** ToString, as a template literal and the string concatenation of a
    key apply it.  An array is joined with commas, [null] and [undefined]
    items giving the empty text.  An object that came from [JSON.parse]
    has no method of its own: it prints through [Object.prototype] unless
    a field named [toString] shadows that method, and then (its [valueOf],
    shadowed or not, yields no primitive either) the conversion raises a
    TypeError. *)
Fixpoint ToString (v : value) : result runtime_error jsstring :=
  match v with
  | VUndefined => Ok (js "undefined")
  | VNull => Ok (js "null")
  | VBool true => Ok (js "true")
  | VBool false => Ok (js "false")
  | VNum n => Ok (NumberToString n)
  | VStr s => Ok s
  | VArr items =>
      (fix join (first : bool) (items : list value)
         : result runtime_error jsstring :=
         match items with
         | [] => Ok []
         | item :: items' =>
             match match item with
                   | VUndefined | VNull => Ok []
                   | _ => ToString item
                   end with
             | Throw e => Throw e
             | Ok s =>
                 match join false items' with
                 | Throw e => Throw e
                 | Ok rest =>
                     Ok ((if first then [] else js ",") ++ s ++ rest)
                 end
             end
         end) true items
  | VObj fields =>
      if has_own fields (js "toString") then Throw TypeError
      else Ok (js "[object Object]")
  end.

End Conversion.

(** The message of the TypeError of a conversion that fails.  The words
    are the engine's own, here those of V8; the program depends on them
    only in that they are not empty. *)
Definition cannot_convert : jsstring :=
  js "Cannot convert object to primitive value".

End JS.
Import JS.

(* ===================================================================== *)
(** * Regular expressions of the runtime

    [validateYouTubeUrl] tests four regular-expression literals and
    [highlightSearchTerm] builds one from the search box with
    [new RegExp].  The fragment below covers what those uses need:
    pattern characters, [.], identity escapes of syntax characters,
    positive character classes, capturing and [(?:] groups, alternation
    and greedy quantifiers.  Anything else in a pattern is reported as
    [Unsupported] rather than guessed at. *)
(* ===================================================================== *)

Module Regex.

Inductive regex :=
| Empty
| Char (c : code_unit)
| Dot
| Class (ranges : list (code_unit * code_unit))
| Seq (r1 r2 : regex)
| Alt (r1 r2 : regex)
| Quant (min : nat) (max : option nat) (r : regex)
| Group (n : nat) (r : regex).

(** ** Pattern syntax *)

Inductive parsed (A : Type) :=
| Parsed (a : A)
| BadPattern          (* the constructor throws a SyntaxError *)
| Unsupported.        (* valid or not, outside the fragment *)
Arguments Parsed {A} a.
Arguments BadPattern {A}.
Arguments Unsupported {A}.

Definition pbind {A B} (p : parsed A) (f : A -> parsed B) : parsed B :=
  match p with
  | Parsed a => f a
  | BadPattern => BadPattern
  | Unsupported => Unsupported
  end.

Notation "x <- p ;; q" := (pbind p (fun x => q))
  (at level 61, p at next level, right associativity).
Notation "' pat <- p ;; q" :=
  (pbind p (fun x => match x with pat => q end))
  (at level 61, pat pattern, p at next level, right associativity).

(** Code units of the syntax characters. *)
Definition c_dollar : code_unit := 36%N.
Definition c_lparen : code_unit := 40%N.
Definition c_rparen : code_unit := 41%N.
Definition c_star : code_unit := 42%N.
Definition c_plus : code_unit := 43%N.
Definition c_comma : code_unit := 44%N.
Definition c_minus : code_unit := 45%N.
Definition c_dot : code_unit := 46%N.
Definition c_colon : code_unit := 58%N.
Definition c_quest : code_unit := 63%N.
Definition c_lbrack : code_unit := 91%N.
Definition c_bslash : code_unit := 92%N.
Definition c_rbrack : code_unit := 93%N.
Definition c_caret : code_unit := 94%N.
Definition c_lbrace : code_unit := 123%N.
Definition c_bar : code_unit := 124%N.
Definition c_rbrace : code_unit := 125%N.

Definition c_slash : code_unit := 47%N.

(** SyntaxCharacter. *)
Definition is_syntax_char (c : code_unit) : bool :=
  existsb (N.eqb c)
    [c_caret; c_dollar; c_bslash; c_dot; c_star; c_plus; c_quest; c_lparen;
     c_rparen; c_lbrack; c_rbrack; c_lbrace; c_rbrace; c_bar].

(** What an identity escape may name: a syntax character or the slash. *)
Definition is_escapable (c : code_unit) : bool :=
  is_syntax_char c || (c =? c_slash)%N.

(** The upper-case form of an ASCII letter; any other unit is itself. *)
Definition ascii_upper (c : code_unit) : code_unit :=
  if ((97 <=? c) && (c <=? 122))%N then (c - 32)%N else c.

(** A text without syntax characters. *)
Definition plain (text : jsstring) : bool :=
  forallb (fun c => negb (is_syntax_char c)) text.

Definition is_digit (c : code_unit) : bool := ((48 <=? c) && (c <=? 57))%N.

(** Leading decimal digits of [s] and what follows them. *)
Fixpoint digits (s : jsstring) (acc : option nat) : option nat * jsstring :=
  match s with
  | c :: s' =>
      if is_digit c
      then digits s' (Some (10 * match acc with Some a => a | None => 0 end
                            + N.to_nat (c - 48)))
      else (acc, s)
  | [] => (acc, s)
  end.

(** The units of a character class up to its closing bracket. *)
Fixpoint class_body (s : jsstring) (acc : jsstring)
  : parsed (jsstring * jsstring) :=
  match s with
  | [] => BadPattern
  | c :: s' =>
      if (c =? c_rbrack)%N then Parsed (rev acc, s')
      else if (c =? c_bslash)%N then Unsupported
      else class_body s' (c :: acc)
  end.

(** ClassRanges: [a-b] is a range, a dash first or last is itself. *)
Fixpoint class_ranges (body : jsstring)
  : parsed (list (code_unit * code_unit)) :=
  match body with
  | [] => Parsed []
  | c :: body' =>
      match body' with
      | d :: e :: body'' =>
          if (d =? c_minus)%N
          then if (e <? c)%N then BadPattern
               else rs <- class_ranges body'' ;; Parsed ((c, e) :: rs)
          else rs <- class_ranges body' ;; Parsed ((c, c) :: rs)
      | _ => rs <- class_ranges body' ;; Parsed ((c, c) :: rs)
      end
  end.

(** A quantifier at the head of [s], if any: bounds and what follows.
    Lazy quantifiers and a brace that opens no quantifier are outside the
    fragment. *)
Definition quantifier (s : jsstring)
  : parsed (option (nat * option nat) * jsstring) :=
  let greedy (q : nat * option nat) (rest : jsstring) :=
    match rest with
    | c :: _ => if (c =? c_quest)%N then Unsupported else Parsed (Some q, rest)
    | [] => Parsed (Some q, rest)
    end in
  match s with
  | c :: s' =>
      if (c =? c_star)%N then greedy (0, None) s'
      else if (c =? c_plus)%N then greedy (1, None) s'
      else if (c =? c_quest)%N then greedy (0, Some 1) s'
      else if (c =? c_lbrace)%N then
        match digits s' None with
        | (Some lo, d :: s'') =>
            if (d =? c_rbrace)%N then greedy (lo, Some lo) s''
            else if (d =? c_comma)%N then
              match digits s'' None with
              | (None, e :: s3) =>
                  if (e =? c_rbrace)%N then greedy (lo, None) s3
                  else Unsupported
              | (Some hi, e :: s3) =>
                  if (e =? c_rbrace)%N
                  then if hi <? lo then BadPattern
                       else greedy (lo, Some hi) s3
                  else Unsupported
              | _ => Unsupported
              end
            else Unsupported
        | _ => Unsupported
        end
      else Parsed (None, s)
  | [] => Parsed (None, s)
  end.

(** Disjunction, Alternative and Term by recursive descent.  [g] is the
    number of capturing groups opened so far; the result carries the
    remaining input and the updated count.  [fuel] bounds the depth of
    the descent; a pattern that used it up would be reported as
    [Unsupported]. *)
Fixpoint disjunction (fuel : nat) (s : jsstring) (g : nat)
  : parsed (regex * jsstring * nat) :=
  match fuel with
  | O => Unsupported
  | S fuel' =>
      '(a, s1, g1) <- alternative fuel' s g ;;
      match s1 with
      | c :: s2 =>
          if (c =? c_bar)%N
          then '(d, s3, g3) <- disjunction fuel' s2 g1 ;;
               Parsed (Alt a d, s3, g3)
          else Parsed (a, s1, g1)
      | [] => Parsed (a, s1, g1)
      end
  end

with alternative (fuel : nat) (s : jsstring) (g : nat)
  : parsed (regex * jsstring * nat) :=
  match fuel with
  | O => Unsupported
  | S fuel' =>
      match s with
      | [] => Parsed (Empty, s, g)
      | c :: _ =>
          if ((c =? c_bar) || (c =? c_rparen))%N then Parsed (Empty, s, g)
          else '(t, s1, g1) <- term fuel' s g ;;
               '(a, s2, g2) <- alternative fuel' s1 g1 ;;
               Parsed (Seq t a, s2, g2)
      end
  end

with term (fuel : nat) (s : jsstring) (g : nat)
  : parsed (regex * jsstring * nat) :=
  match fuel with
  | O => Unsupported
  | S fuel' =>
      '(a, s1, g1) <-
        match s with
        | [] => BadPattern
        | c :: s' =>
            if (c =? c_dot)%N then Parsed (Dot, s', g)
            else if (c =? c_bslash)%N then
              match s' with
              | [] => BadPattern
              | e :: s'' =>
                  if is_escapable e then Parsed (Char e, s'', g)
                  else Unsupported
              end
            else if (c =? c_lbrack)%N then
              match s' with
              | e :: _ =>
                  if (e =? c_caret)%N then Unsupported
                  else '(body, s'') <- class_body s' [] ;;
                       rs <- class_ranges body ;;
                       Parsed (Class rs, s'', g)
              | [] => BadPattern
              end
            else if (c =? c_lparen)%N then
              match s' with
              | q :: s'' =>
                  if (q =? c_quest)%N then
                    match s'' with
                    | k :: s3 =>
                        if (k =? c_colon)%N then
                          '(d, s4, g4) <- disjunction fuel' s3 g ;;
                          match s4 with
                          | p :: s5 =>
                              if (p =? c_rparen)%N then Parsed (d, s5, g4)
                              else BadPattern
                          | [] => BadPattern
                          end
                        else Unsupported
                    | [] => BadPattern
                    end
                  else
                    '(d, s4, g4) <- disjunction fuel' s' (S g) ;;
                    match s4 with
                    | p :: s5 =>
                        if (p =? c_rparen)%N
                        then Parsed (Group (S g) d, s5, g4)
                        else BadPattern
                    | [] => BadPattern
                    end
              | [] => BadPattern
              end
            else if ((c =? c_star) || (c =? c_plus) || (c =? c_quest))%N
            then BadPattern
            else if is_syntax_char c then Unsupported
            else Parsed (Char c, s', g)
        end ;;
      '(q, s2) <- quantifier s1 ;;
      match q with
      | Some (lo, hi) => Parsed (Quant lo hi a, s2, g1)
      | None => Parsed (a, s2, g1)
      end
  end.

(** The Pattern production: a disjunction that uses up the source.  An
    unmatched closing parenthesis is all that can be left over. *)
Definition pattern (src : jsstring) : parsed (regex * nat) :=
  '(r, rest, g) <- disjunction (4 * List.length src + 4) src 0 ;;
  match rest with
  | [] => Parsed (r, g)
  | _ => BadPattern
  end.

(** ** Matching

    The backtracking matcher of the language definition, in
    continuation-passing style.  A state is the input still to be read and
    the captures made so far. *)

Record mstate := { rest : jsstring; caps : list (nat * jsstring) }.

Definition continuation := mstate -> option mstate.

Definition is_line_terminator (c : code_unit) : bool :=
  ((c =? 10) || (c =? 13) || (c =? 8232) || (c =? 8233))%N.

(** Capturing groups inside [r], which an iteration of a quantifier
    resets. *)
Fixpoint groups (r : regex) : list nat :=
  match r with
  | Empty | Char _ | Dot | Class _ => []
  | Seq a b | Alt a b => groups a ++ groups b
  | Quant _ _ a => groups a
  | Group n a => n :: groups a
  end.

Definition clear (gs : list nat) (x : mstate) : mstate :=
  {| rest := rest x;
     caps := filter (fun c => negb (existsb (Nat.eqb (fst c)) gs)) (caps x) |}.

(** Group [n] matched from state [x] to state [y]. *)
Definition capture (n : nat) (x y : mstate) : mstate :=
  {| rest := rest y;
     caps := (n, firstn (List.length (rest x) - List.length (rest y)) (rest x))
             :: caps y |}.

Fixpoint cap_lookup (cs : list (nat * jsstring)) (n : nat) : option jsstring :=
  match cs with
  | [] => None
  | (k, s) :: cs' => if Nat.eqb k n then Some s else cap_lookup cs' n
  end.

(** A matcher is local when it hands its continuation only states that
    are no longer than the one it started from. *)
Definition local (body : continuation -> mstate -> option mstate) : Prop :=
  forall (k k' : continuation) (x : mstate),
    (forall y, List.length (rest y) <= List.length (rest x) -> k y = k' y) ->
    body k x = body k' x.

(** Read one code unit that satisfies [p]. *)
Definition step (p : code_unit -> bool) (k : continuation) (x : mstate)
  : option mstate :=
  match rest x with
  | ch :: tl => if p ch then k {| rest := tl; caps := caps x |} else None
  | [] => None
  end.

Section Matcher.

(** The [i] flag, and the upper-case image the runtime's Unicode tables
    give a code unit outside ASCII. *)
Variable ignoreCase : bool.
Variable unicodeUpper : code_unit -> code_unit.

Definition Canonicalize (ch : code_unit) : code_unit :=
  if ignoreCase then
    if (ch <? 128)%N
    then if ((97 <=? ch) && (ch <=? 122))%N then (ch - 32)%N else ch
    else unicodeUpper ch
  else ch.

Definition same_char (c ch : code_unit) : bool :=
  (Canonicalize c =? Canonicalize ch)%N.

(** Membership in a class: some member has the canonical form of [ch]. *)
Definition in_class (rs : list (code_unit * code_unit)) (ch : code_unit)
  : bool :=
  if ignoreCase then
    existsb (fun '(lo, hi) =>
               existsb (fun i => same_char (lo + N.of_nat i)%N ch)
                       (seq 0 (N.to_nat (hi + 1 - lo)))) rs
  else existsb (fun '(lo, hi) => ((lo <=? ch) && (ch <=? hi))%N) rs.

(** RepeatMatcher for a body matched by [body], whose groups are [gs].
    Each round either lowers [lo] or reads input, so
    [lo + length (rest x) + 1] rounds are never used up. *)
Fixpoint repeat (body : continuation -> mstate -> option mstate)
    (gs : list nat) (k : continuation) (fuel lo : nat) (hi : option nat)
    (x : mstate) {struct fuel} : option mstate :=
  match fuel with
  | O => None
  | S fuel' =>
      match hi with
      | Some O => k x
      | _ =>
          let d (y : mstate) :=
            if Nat.eqb lo 0
               && Nat.eqb (List.length (rest y)) (List.length (rest x))
            then None
            else repeat body gs k fuel' (Nat.pred lo)
                        (option_map Nat.pred hi) y in
          let xr := clear gs x in
          match lo with
          | S _ => body d xr
          | O => match body d xr with
                 | Some z => Some z
                 | None => k x
                 end
          end
      end
  end.

Fixpoint m (r : regex) (k : continuation) (x : mstate) {struct r}
  : option mstate :=
  match r with
  | Empty => k x
  | Char c => step (same_char c) k x
  | Dot => step (fun ch => negb (is_line_terminator ch)) k x
  | Class rs => step (in_class rs) k x
  | Seq a b => m a (m b k) x
  | Alt a b => match m a k x with Some y => Some y | None => m b k x end
  | Group n a => m a (fun y => k (capture n x y)) x
  | Quant lo hi a =>
      repeat (m a) (groups a) k (lo + List.length (rest x) + 1) lo hi x
  end.

Definition matched (o : option mstate) : bool :=
  match o with Some _ => true | None => false end.

(** A match that starts at the head of [s]. *)
Definition match_at (r : regex) (s : jsstring) : option mstate :=
  m r (fun y => Some y) {| rest := s; caps := [] |}.

(** [RegExp.prototype.test] without the [g] flag: a match somewhere. *)
Fixpoint test (r : regex) (s : jsstring) : bool :=
  match match_at r s with
  | Some _ => true
  | None => match s with [] => false | _ :: s' => test r s' end
  end.

(** ** Replacement *)

(** GetSubstitution with [ngroups] captures.  The references to the text
    before and after the match and to named groups are outside the
    fragment. *)
Fixpoint substitute (template matched : jsstring)
    (cs : list (nat * jsstring)) (ngroups : nat) : option jsstring :=
  let cap (n : nat) :=
    match cap_lookup cs n with Some s => s | None => [] end in
  let num (d : code_unit) := N.to_nat (d - 48) in
  match template with
  | [] => Some []
  | c :: t1 =>
      if negb (c =? c_dollar)%N
      then option_map (cons c) (substitute t1 matched cs ngroups)
      else
        match t1 with
        | [] => Some [c]
        | d :: t2 =>
            if (d =? c_dollar)%N
            then option_map (cons c) (substitute t2 matched cs ngroups)
            else if (d =? 38)%N
            then option_map (app matched) (substitute t2 matched cs ngroups)
            else if ((d =? 96) || (d =? 39) || (d =? 60))%N then None
            else if is_digit d then
              let one :=
                if (1 <=? num d) && (num d <=? ngroups)
                then option_map (app (cap (num d)))
                                (substitute t2 matched cs ngroups)
                else option_map (fun s => c :: d :: s)
                                (substitute t2 matched cs ngroups) in
              match t2 with
              | e :: t3 =>
                  if is_digit e then
                    let nn := 10 * num d + num e in
                    if nn <=? ngroups
                    then if 1 <=? nn
                         then option_map (app (cap nn))
                                         (substitute t3 matched cs ngroups)
                         else option_map (fun s => c :: d :: e :: s)
                                         (substitute t3 matched cs ngroups)
                    else one
                  else one
              | [] => one
              end
            else option_map (cons c) (substitute t1 matched cs ngroups)
        end
  end.

(** [String.prototype.replace] with a global pattern: every match, left
    to right, the search resuming where the last match ended and one
    unit further after an empty match.  [skip] counts the units of the
    current match still to be passed over. *)
Fixpoint replace_from (r : regex) (ngroups : nat) (template : jsstring)
    (s : jsstring) (skip : nat) {struct s} : option jsstring :=
  match skip with
  | S skip' =>
      match s with
      | [] => Some []
      | _ :: s' => replace_from r ngroups template s' skip'
      end
  | O =>
      let copy :=
        match s with
        | [] => Some []
        | c :: s' =>
            option_map (cons c) (replace_from r ngroups template s' 0)
        end in
      match match_at r s with
      | None => copy
      | Some y =>
          let len := List.length s - List.length (rest y) in
          match substitute template (firstn len s) (caps y) ngroups with
          | None => None
          | Some sub =>
              option_map (app sub)
                match len with
                | O => copy
                | S len' =>
                    match s with
                    | [] => Some []
                    | _ :: s' => replace_from r ngroups template s' len'
                    end
                end
          end
      end
  end.

End Matcher.

End Regex.

(* ===================================================================== *)
(** * The HTTP library

    What the program sees of axios: a request goes out and settles with a
    response or with an error object.  How it settles is the business of
    the transport and the server, a function of the request and of the
    traffic so far. *)
(* ===================================================================== *)

Module Http.

Inductive method := GET | POST.

Record request := {
  req_method : method;
  req_baseURL : value;      (* [undefined] for the bare [axios] object *)
  req_url : jsstring;
  req_data : value;         (* [undefined] when there is no body *)
  req_timeout : N           (* milliseconds, 0 for none *)
}.

Record response := { status : N; data : value }.

(** The error object of a failed call: [error.message], [error.response]
    and whether [error.request] is set. *)
Record axios_error := {
  message : jsstring;
  err_response : option response;
  err_request : bool
}.

Inductive settled :=
| Fulfilled (r : response)
| Rejected (e : axios_error).

Definition network := list request -> request -> settled.

(** Computations over the log of issued requests that may throw an [E]. *)
Definition M (E A : Type) := list request -> result E A * list request.

Definition ret {E A} (a : A) : M E A := fun log => (Ok a, log).

Definition throw {E A} (e : E) : M E A := fun log => (Throw e, log).

Definition bind {E A B} (c : M E A) (f : A -> M E B) : M E B :=
  fun log =>
    match c log with
    | (Ok a, log') => f a log'
    | (Throw e, log') => (Throw e, log')
    end.

(** [try { c } catch (e) { h e }]. *)
Definition try_catch {E E' A} (c : M E A) (h : E -> M E' A) : M E' A :=
  fun log =>
    match c log with
    | (Ok a, log') => (Ok a, log')
    | (Throw e, log') => h e log'
    end.

(** One call of the library, without interceptors. *)
Definition send (net : network) (req : request) : M axios_error response :=
  fun log =>
    match net log req with
    | Fulfilled r => (Ok r, log ++ [req])
    | Rejected e => (Throw e, log ++ [req])
    end.

End Http.
Import Http.

Declare Scope js_scope.
Delimit Scope js_scope with js.
Notation "x <- c ;; k" := (bind c (fun x => k))
  (at level 61, c at next level, right associativity) : js_scope.

(* ===================================================================== *)
(** * services/api.js *)
(* ===================================================================== *)

Module Api.

(** [new Error(message)]. *)
Record Error := { err_message : jsstring }.

(** An entry of the language list, as the object literals spell it. *)
Definition language (code name native_name flag display : jsstring)
  : value :=
  VObj [(js "code", VStr code); (js "name", VStr name);
        (js "native_name", VStr native_name); (js "flag", VStr flag);
        (js "display", VStr display)].

(** The flags and the native names outside ASCII, by code unit. *)
Definition flag_US : jsstring := [55356; 56826; 55356; 56824]%N.
Definition flag_ES : jsstring := [55356; 56810; 55356; 56824]%N.
Definition flag_FR : jsstring := [55356; 56811; 55356; 56823]%N.
Definition flag_DE : jsstring := [55356; 56809; 55356; 56810]%N.
Definition flag_IT : jsstring := [55356; 56814; 55356; 56825]%N.
Definition flag_JP : jsstring := [55356; 56815; 55356; 56821]%N.
Definition flag_KR : jsstring := [55356; 56816; 55356; 56823]%N.
Definition flag_CN : jsstring := [55356; 56808; 55356; 56819]%N.
Definition flag_IN : jsstring := [55356; 56814; 55356; 56819]%N.
Definition flag_SA : jsstring := [55356; 56824; 55356; 56806]%N.

Definition fallback_languages : list value :=
  [ language (js "en") (js "English") (js "English") flag_US
      (flag_US ++ js " English");
    language (js "es") (js "Spanish") (js "Espa" ++ [241%N] ++ js "ol") flag_ES
      (flag_ES ++ js " Espa" ++ [241%N] ++ js "ol");
    language (js "fr") (js "French") (js "Fran" ++ [231%N] ++ js "ais") flag_FR
      (flag_FR ++ js " Fran" ++ [231%N] ++ js "ais");
    language (js "de") (js "German") (js "Deutsch") flag_DE
      (flag_DE ++ js " Deutsch");
    language (js "it") (js "Italian") (js "Italiano") flag_IT
      (flag_IT ++ js " Italiano");
    language (js "ja") (js "Japanese") [26085; 26412; 35486]%N flag_JP
      (flag_JP ++ js " " ++ [26085; 26412; 35486]%N);
    language (js "ko") (js "Korean") [54620; 44397; 50612]%N flag_KR
      (flag_KR ++ js " " ++ [54620; 44397; 50612]%N);
    language (js "zh") (js "Chinese") [20013; 25991]%N flag_CN
      (flag_CN ++ js " " ++ [20013; 25991]%N);
    language (js "hi") (js "Hindi") [2361; 2367; 2344; 2381; 2342; 2368]%N
      flag_IN
      (flag_IN ++ js " " ++ [2361; 2367; 2344; 2381; 2342; 2368]%N);
    language (js "ar") (js "Arabic")
      [1575; 1604; 1593; 1585; 1576; 1610; 1577]%N flag_SA
      (flag_SA ++ js " " ++ [1575; 1604; 1593; 1585; 1576; 1610; 1577]%N) ].

Definition fallback : value :=
  VObj [(js "languages", VArr fallback_languages);
        (js "total_languages", VNum 10)].

Definition network_error_message : jsstring :=
  js "Network Error: Unable to connect to the API server. "
  ++ js "Make sure the backend is running on http://localhost:8000".

(** The three kinds of failure in the words of the specification, and
    the message that stands for each. *)
Inductive error_kind :=
| ApiError (status : N) (detail : jsstring)
| NetworkError
| RequestError (cause : jsstring).

Definition describe (k : error_kind) : jsstring :=
  match k with
  | ApiError status detail =>
      js "API Error (" ++ decimal status ++ js "): " ++ detail
  | NetworkError => network_error_message
  | RequestError cause => js "Request Error: " ++ cause
  end.


Section Client.

(** The build-time environment, the runtime's printing of numbers, and
    the network. *)
Variable VITE_API_URL : value.
Variable NumberToString : Z -> jsstring.
Variable net : network.

Definition API_BASE_URL : value :=
  or_else VITE_API_URL (VStr (js "http://localhost:8000")).

(** [`${v}`]. *)
Definition template (v : value) : result runtime_error jsstring :=
  ToString NumberToString v.

(** The TypeError of a template literal, as the error object a caller
    catches. *)
Definition conversion_error : Error := {| err_message := cannot_convert |}.

(** [error.response.data?.detail || error.response.data?.message ||
    error.message]. *)
Definition server_message (error : axios_error) (resp : response) : value :=
  or_else (or_else (get (data resp) (js "detail"))
                   (get (data resp) (js "message")))
          (VStr (message error)).

(** The rejection handler of the response interceptor: what it throws.
    With a response that is the [Error] it builds, unless the template
    literal of the message raises first. *)
Definition on_rejected (error : axios_error) : Error :=
  match err_response error with
  | Some resp =>
      let message := server_message error resp in
      match template message with
      | Ok text =>
          {| err_message :=
               js "API Error (" ++ decimal (status resp) ++ js "): "
               ++ text |}
      | Throw _ => conversion_error
      end
  | None =>
      if err_request error
      then {| err_message := network_error_message |}
      else {| err_message := js "Request Error: " ++ message error |}
  end.

(** A call through the configured instance: base URL, 90 s timeout, and
    the interceptor on the way back.  The one header the instance sets,
    the JSON content type, is the same for every call and left out. *)
Definition api_request (meth : method) (url : jsstring) (body : value)
  : request :=
  {| req_method := meth; req_baseURL := API_BASE_URL; req_url := url;
     req_data := body; req_timeout := 90000 |}.

Definition api_call (meth : method) (url : jsstring) (body : value)
  : M Error response :=
  try_catch (send net (api_request meth url body))
            (fun error => throw (on_rejected error)).

Definition api_get (url : jsstring) : M Error response :=
  api_call GET url VUndefined.

Definition api_post (url : jsstring) (body : value) : M Error response :=
  api_call POST url body.

Definition getSupportedLanguages : M Error value :=
  try_catch
    (response <- api_get (js "/api/languages") ;; ret (data response))%js
    (fun _ : Error => ret fallback).

Definition analyzeVideoAdvanced (url outputLanguage videoLanguageHint : value)
  : M Error value :=
  let outputLanguage := default (VStr (js "en")) outputLanguage in
  let videoLanguageHint := default VNull videoLanguageHint in
  try_catch
    (response <-
       api_post (js "/api/advanced-summary")
         (VObj [(js "url", url);
                (js "output_language", outputLanguage);
                (js "auto_detect_video_language", VBool true);
                (js "video_language_hint", videoLanguageHint)]) ;;
     ret (data response))%js
    (fun error => throw error).

Definition queryTranscriptAdvanced
    (transcript query outputLanguage queryLanguage : value) : M Error value :=
  let outputLanguage := default (VStr (js "en")) outputLanguage in
  let queryLanguage := default VNull queryLanguage in
  try_catch
    (response <-
       api_post (js "/api/advanced-query")
         (VObj [(js "transcript", transcript);
                (js "query", query);
                (js "output_language", outputLanguage);
                (js "query_language", queryLanguage)]) ;;
     ret (data response))%js
    (fun error => throw error).

(** The backward-compatible entry points pass two, respectively three,
    arguments on; the last parameter of the callee is left out. *)
Definition analyzeVideo (url language : value) : M Error value :=
  let language := default (VStr (js "en")) language in
  analyzeVideoAdvanced url language VUndefined.

Definition queryTranscript (transcript query language : value)
  : M Error value :=
  let language := default (VStr (js "en")) language in
  queryTranscriptAdvanced transcript query language VUndefined.

Definition checkApiHealth : M Error bool :=
  try_catch
    (response <- api_get (js "/health") ;; ret (status response =? 200)%N)%js
    (fun _ : Error => ret false).

End Client.

End Api.

(* ===================================================================== *)
(** * App.jsx: the page-level component *)
(* ===================================================================== *)

Module App.

Import Api.

Record state := {
  analysisData : value;
  loading : bool;
  error : value;
  selectedLanguage : value
}.

Definition initial : state :=
  {| analysisData := VNull; loading := false; error := VNull;
     selectedLanguage := VStr (js "en") |}.

Definition failed_to_query : Error :=
  {| err_message := js "Failed to query transcript" |}.

Section Handlers.

Variable VITE_API_URL : value.
Variable NumberToString : Z -> jsstring.
Variable net : network.

(** The state once the handler has run to its end, and the requests it
    issued. *)
Definition handleAnalyzeVideo (url outputLanguage videoLanguageHint : value)
    (st : state) (log : list request) : state * list request :=
  let outputLanguage := default (VStr (js "en")) outputLanguage in
  let videoLanguageHint := default VNull videoLanguageHint in
  let st :=
    {| analysisData := VNull; loading := true; error := VNull;
       selectedLanguage := outputLanguage |} in
  match analyzeVideoAdvanced VITE_API_URL NumberToString net
          url outputLanguage videoLanguageHint log with
  | (Ok data, log') =>
      ({| analysisData := data; loading := false; error := error st;
          selectedLanguage := selectedLanguage st |}, log')
  | (Throw err, log') =>
      ({| analysisData := analysisData st; loading := false;
          error := or_else (VStr (err_message err))
                           (VStr (js "Failed to analyze video"));
          selectedLanguage := selectedLanguage st |}, log')
  end.

Definition handleQuery (st : state) (query : value) : M Error value :=
  if negb (truthy (get (analysisData st) (js "transcript"))) then ret VNull
  else
    fun log =>
      match queryTranscriptAdvanced VITE_API_URL NumberToString net
              (get (analysisData st) (js "transcript")) query
              (selectedLanguage st) VUndefined log with
      | (Ok response, log') =>
          match prop response (js "response") with
          | Ok answer => (Ok answer, log')
          | Throw _ => (Throw failed_to_query, log')
          end
      | (Throw _, log') => (Throw failed_to_query, log')
      end.

End Handlers.

End App.

(* ===================================================================== *)
(** * components/AnalysisResults.jsx *)
(* ===================================================================== *)

Module AnalysisResults.

Import Api.

Inductive tab :=
| overview | language_info | sentiment | themes | wordcloud | transcript
| chat.

Record state := {
  activeTab : tab;
  query : jsstring;
  queryResponse : value;
  queryLoading : bool;
  searchTerm : jsstring
}.

Definition initial : state :=
  {| activeTab := overview; query := []; queryResponse := VStr [];
     queryLoading := false; searchTerm := [] |}.

Definition apology : jsstring :=
  js "Sorry, I couldn't process your question. Please try again.".

(** Submitting the chat form; [onQuery] is the property the parent passes
    down. *)
Definition handleQuery (onQuery : value -> M Error value) (st : state)
    (log : list request) : state * list request :=
  match trim (query st) with
  | [] => (st, log)
  | _ =>
      let answered (v : value) :=
        {| activeTab := activeTab st; query := query st; queryResponse := v;
           queryLoading := false; searchTerm := searchTerm st |} in
      match onQuery (VStr (query st)) log with
      | (Ok response, log') => (answered response, log')
      | (Throw _, log') => (answered (VStr apology), log')
      end
  end.

Definition setActiveTab (t : tab) (st : state) : state :=
  {| activeTab := t; query := query st; queryResponse := queryResponse st;
     queryLoading := queryLoading st; searchTerm := searchTerm st |}.

Definition setQuery (q : jsstring) (st : state) : state :=
  {| activeTab := activeTab st; query := q;
     queryResponse := queryResponse st; queryLoading := queryLoading st;
     searchTerm := searchTerm st |}.

Definition setSearchTerm (s : jsstring) (st : state) : state :=
  {| activeTab := activeTab st; query := query st;
     queryResponse := queryResponse st; queryLoading := queryLoading st;
     searchTerm := s |}.

(** The [disabled] attribute of the button of the chat form. *)
Definition ask_disabled (st : state) : bool :=
  queryLoading st || negb (truthy (VStr (trim (query st)))).

Definition emoji_smile : jsstring := [55357; 56842]%N.
Definition emoji_sad : jsstring := [55357; 56862]%N.
Definition emoji_neutral : jsstring := [55357; 56848]%N.

Section Badges.

(** [String.prototype.toLowerCase], with the runtime's Unicode tables. *)
Variable toLowerCase : jsstring -> jsstring.

(** [label?.toLowerCase()]: nothing to call on [null] and [undefined],
    no such method on a value that is not a string. *)
Definition lower (label : value) : result runtime_error value :=
  match label with
  | VUndefined | VNull => Ok VUndefined
  | VStr s => Ok (VStr (toLowerCase s))
  | _ => Throw TypeError
  end.

Definition getSentimentColor (sentiment : value)
  : result runtime_error jsstring :=
  match lower sentiment with
  | Throw e => Throw e
  | Ok l =>
      if strict_eq_str l (js "positive")
      then Ok (js "text-green-600 bg-green-100")
      else if strict_eq_str l (js "negative")
      then Ok (js "text-red-600 bg-red-100")
      else Ok (js "text-gray-600 bg-gray-100")
  end.

Definition getSentimentEmoji (sentiment : value)
  : result runtime_error jsstring :=
  match lower sentiment with
  | Throw e => Throw e
  | Ok l =>
      if strict_eq_str l (js "positive") then Ok emoji_smile
      else if strict_eq_str l (js "negative") then Ok emoji_sad
      else Ok emoji_neutral
  end.

Definition getConfidenceColor (confidence : value)
  : result runtime_error jsstring :=
  match lower confidence with
  | Throw e => Throw e
  | Ok l =>
      if strict_eq_str l (js "high")
      then Ok (js "text-green-600 bg-green-100")
      else if strict_eq_str l (js "medium")
      then Ok (js "text-yellow-600 bg-yellow-100")
      else if strict_eq_str l (js "low")
      then Ok (js "text-orange-600 bg-orange-100")
      else Ok (js "text-gray-600 bg-gray-100")
  end.

End Badges.

(** What a render-time expression comes to. *)
Inductive rendering :=
| Rendered (v : value)
| Raised (e : runtime_error)
| OutsideFragment.      (* a pattern the regular-expression model leaves out *)

Definition mark_template : jsstring :=
  js "<mark class=" ++ [34%N] ++ js "bg-yellow-200" ++ [34%N]
  ++ js ">$1</mark>".

(** A hit as the template wraps it. *)
Definition marked (hit : jsstring) : jsstring :=
  js "<mark class=" ++ [34%N] ++ js "bg-yellow-200" ++ [34%N] ++ js ">"
  ++ hit ++ js "</mark>".

Section Render.

Variable unicodeUpper : code_unit -> code_unit.

Definition highlightSearchTerm (text : value) (term : jsstring) : rendering :=
  match term with
  | [] => Rendered text
  | _ =>
      match Regex.pattern (js "(" ++ term ++ js ")") with
      | Regex.BadPattern => Raised SyntaxError
      | Regex.Unsupported => OutsideFragment
      | Regex.Parsed (regex, ngroups) =>
          match text with
          | VStr s =>
              match Regex.replace_from true unicodeUpper regex ngroups
                      mark_template s 0 with
              | Some html => Rendered (VStr html)
              | None => OutsideFragment
              end
          | _ => Raised TypeError      (* no [replace] method *)
          end
      end
  end.

(** Highlighting in words, for a search text without syntax characters:
    every occurrence of the text, letter case aside, is wrapped, the
    leftmost first and no two overlapping.  [skip] counts the units of
    the current occurrence still to be passed over. *)
Fixpoint occurs_here (term s : jsstring) : bool :=
  match term, s with
  | [], _ => true
  | c :: term', d :: s' =>
      Regex.same_char true unicodeUpper c d && occurs_here term' s'
  | _ :: _, [] => false
  end.

Fixpoint mark_occurrences (term s : jsstring) (skip : nat) : jsstring :=
  match skip with
  | S skip' =>
      match s with
      | [] => []
      | _ :: s' => mark_occurrences term s' skip'
      end
  | O =>
      if occurs_here term s
      then marked (firstn (List.length term) s)
           ++ match s with
              | [] => []
              | _ :: s' =>
                  mark_occurrences term s' (Nat.pred (List.length term))
              end
      else match s with
           | [] => []
           | c :: s' => c :: mark_occurrences term s' 0
           end
  end.

(** The markup of the transcript tab for the analysis [data]. *)
Definition transcript_html (data : value) (st : state) : rendering :=
  highlightSearchTerm
    (or_else (get data (js "transcript"))
             (VStr (js "No transcript available")))
    (searchTerm st).

End Render.

End AnalysisResults.

(* ===================================================================== *)
(** * components/VideoAnalyzer.jsx *)
(* ===================================================================== *)

Module VideoAnalyzer.

Import Api.

Record state := {
  url : jsstring;
  outputLanguage : jsstring;
  videoLanguageHint : jsstring;
  supportedLanguages : value;
  isValidUrl : bool;
  loadingLanguages : bool;
  showAdvancedOptions : bool
}.

Definition initial : state :=
  {| url := []; outputLanguage := js "en"; videoLanguageHint := [];
     supportedLanguages := VArr []; isValidUrl := true;
     loadingLanguages := false; showAdvancedOptions := false |}.

Definition set_url (u : jsstring) (valid : bool) (st : state) : state :=
  {| url := u; outputLanguage := outputLanguage st;
     videoLanguageHint := videoLanguageHint st;
     supportedLanguages := supportedLanguages st; isValidUrl := valid;
     loadingLanguages := loadingLanguages st;
     showAdvancedOptions := showAdvancedOptions st |}.

Definition setIsValidUrl (valid : bool) (st : state) : state :=
  set_url (url st) valid st.

Definition loaded (langs : option value) (st : state) : state :=
  {| url := url st; outputLanguage := outputLanguage st;
     videoLanguageHint := videoLanguageHint st;
     supportedLanguages :=
       match langs with Some v => v | None => supportedLanguages st end;
     isValidUrl := isValidUrl st; loadingLanguages := false;
     showAdvancedOptions := showAdvancedOptions st |}.

(** The source text of the four literals. *)
Definition pattern_sources : list jsstring :=
  [ js "(?:youtube\.com\/watch\?v=)([0-9A-Za-z_-]{11})";
    js "(?:youtu\.be\/)([0-9A-Za-z_-]{11})";
    js "(?:youtube\.com\/embed\/)([0-9A-Za-z_-]{11})";
    js "(?:youtube\.com\/v\/)([0-9A-Za-z_-]{11})" ].

Definition compile (src : jsstring) : list Regex.regex :=
  match Regex.pattern src with
  | Regex.Parsed (r, _) => [r]
  | _ => []
  end.

Definition patterns : list Regex.regex := flat_map compile pattern_sources.

Definition validateYouTubeUrl (url : jsstring) : bool :=
  existsb (fun pattern => Regex.test false (fun c => c) pattern url) patterns.

(** The four shapes in words: one of four fixed texts followed by eleven
    units out of digits, letters, underscore and dash, anywhere in the
    input. *)
Definition url_prefixes : list jsstring :=
  [ js "youtube.com/watch?v="; js "youtu.be/"; js "youtube.com/embed/";
    js "youtube.com/v/" ].

Definition id_char (c : code_unit) : bool :=
  ((48 <=? c) && (c <=? 57) || (65 <=? c) && (c <=? 90)
   || (97 <=? c) && (c <=? 122) || (c =? 95) || (c =? 45))%N.

Fixpoint starts_with (p s : jsstring) : bool :=
  match p, s with
  | [], _ => true
  | c :: p', d :: s' => (c =? d)%N && starts_with p' s'
  | _ :: _, [] => false
  end.

Definition shape_at (prefix s : jsstring) : bool :=
  starts_with prefix s
  && (11 <=? List.length (skipn (List.length prefix) s))
  && forallb id_char (firstn 11 (skipn (List.length prefix) s)).

(** The shape occurs at some position of [s]. *)
Fixpoint occurs (prefix s : jsstring) : bool :=
  shape_at prefix s
  || match s with [] => false | _ :: s' => occurs prefix s' end.

Definition literal (p : jsstring) : Regex.regex :=
  fold_right (fun c r => Regex.Seq (Regex.Char c) r) Regex.Empty p.

Definition id_class : list (code_unit * code_unit) :=
  [(48, 57); (65, 90); (97, 122); (95, 95); (45, 45)]%N.

Definition url_pattern (prefix : jsstring) : Regex.regex :=
  Regex.Seq (literal prefix)
    (Regex.Seq
       (Regex.Group 1
          (Regex.Seq (Regex.Quant 11 (Some 11) (Regex.Class id_class))
                     Regex.Empty))
       Regex.Empty).

(** Submitting the form; [onAnalyze] is the property the parent passes
    down, acting on the parent's side [P] of the page. *)
Definition handleSubmit {P : Type}
    (onAnalyze : value -> value -> value -> P -> P)
    (st : state) (page : P) : state * P :=
  match trim (url st) with
  | [] => (setIsValidUrl false st, page)
  | _ =>
      if negb (validateYouTubeUrl (url st))
      then (setIsValidUrl false st, page)
      else (setIsValidUrl true st,
            onAnalyze (VStr (url st)) (VStr (outputLanguage st))
                      (or_else (VStr (videoLanguageHint st)) VNull) page)
  end.

Definition handleUrlChange (newUrl : jsstring) (st : state) : state :=
  if truthy (VStr newUrl) && negb (validateYouTubeUrl newUrl)
  then set_url newUrl false st
  else set_url newUrl true st.

Definition popularLanguages : list jsstring :=
  [js "en"; js "es"; js "fr"; js "de"; js "ja"; js "ko"; js "zh"; js "hi";
   js "ar"; js "pt"].

(** [langs.find(lang => lang.code === code)]. *)
Fixpoint find_code (langs : list value) (code : jsstring)
  : result runtime_error value :=
  match langs with
  | [] => Ok VUndefined
  | lang :: langs' =>
      match prop lang (js "code") with
      | Throw e => Throw e
      | Ok c => if strict_eq_str c code then Ok lang else find_code langs' code
      end
  end.

Definition getLanguageByCode (st : state) (code : jsstring)
  : result runtime_error value :=
  match supportedLanguages st with
  | VArr langs => find_code langs code
  | _ => Throw TypeError       (* no [find] method *)
  end.

(** [codes.map(f)], stopping at the first exception. *)
Fixpoint map_result {A B : Type} (f : A -> result runtime_error B)
    (l : list A) : result runtime_error (list B) :=
  match l with
  | [] => Ok []
  | a :: l' =>
      match f a with
      | Throw e => Throw e
      | Ok b =>
          match map_result f l' with
          | Throw e => Throw e
          | Ok bs => Ok (b :: bs)
          end
      end
  end.

Definition popularLangs (st : state) : result runtime_error (list value) :=
  match map_result (getLanguageByCode st) popularLanguages with
  | Throw e => Throw e
  | Ok found => Ok (filter truthy found)
  end.

(** [langs.filter(lang => !popularLanguages.includes(lang.code))]. *)
Fixpoint filter_others (langs : list value)
  : result runtime_error (list value) :=
  match langs with
  | [] => Ok []
  | lang :: langs' =>
      match prop lang (js "code") with
      | Throw e => Throw e
      | Ok c =>
          match filter_others langs' with
          | Throw e => Throw e
          | Ok rest =>
              if negb (existsb (strict_eq_str c) popularLanguages)
              then Ok (lang :: rest) else Ok rest
          end
      end
  end.

Definition otherLangs (st : state) : result runtime_error (list value) :=
  match supportedLanguages st with
  | VArr langs => filter_others langs
  | _ => Throw TypeError       (* no [filter] method *)
  end.

Section Options.

Variable NumberToString : Z -> jsstring.

(** What React shows for a value given as the child of an element: the
    text of a string or of a number, nothing for a boolean, [null] or
    [undefined], the items of an array one after the other.  An object
    from [JSON.parse] is no element and no iterable, and React refuses
    it. *)
Fixpoint child_text (v : value) : result runtime_error jsstring :=
  match v with
  | VUndefined | VNull | VBool _ => Ok []
  | VNum n => Ok (NumberToString n)
  | VStr s => Ok s
  | VArr items =>
      (fix each (items : list value) : result runtime_error jsstring :=
         match items with
         | [] => Ok []
         | item :: items' =>
             match child_text item with
             | Throw e => Throw e
             | Ok s =>
                 match each items' with
                 | Throw e => Throw e
                 | Ok rest => Ok (s ++ rest)
                 end
             end
         end) items
  | VObj _ => Throw InvalidChild
  end.

(** [<option key={lang.code} value={lang.code}>{lang.display}</option>]
    as the body of the component creates it.  A key other than
    [undefined] is turned into a string on creation, by concatenation
    with the empty string. *)
Record option_jsx := { jsx_value : value; jsx_children : value }.

Definition option_of (lang : value) : result runtime_error option_jsx :=
  match prop lang (js "code"), prop lang (js "display") with
  | Ok c, Ok d =>
      match match c with
            | VUndefined => Ok []
            | _ => ToString NumberToString c
            end with
      | Ok _ => Ok {| jsx_value := c; jsx_children := d |}
      | Throw e => Throw e
      end
  | Throw e, _ | _, Throw e => Throw e
  end.

(** The option as React shows it: the [value] property it was given and
    its text. *)
Record option_element := { opt_value : value; opt_text : jsstring }.

Definition mount_option (o : option_jsx)
  : result runtime_error option_element :=
  match child_text (jsx_children o) with
  | Ok text => Ok {| opt_value := jsx_value o; opt_text := text |}
  | Throw e => Throw e
  end.

(** The children of the output-language selector: the placeholder while
    the list loads, else the popular group and the group of the other
    languages, which is left out when it is empty.  The component computes
    both lists in its body, before it comes to the selector; it creates
    the options of both groups there as well, and React shows them once
    the body has returned. *)
Inductive selector :=
| LoadingLanguages
| Groups (popular : list option_element) (others : list option_element).

Definition output_language_select (st : state)
  : result runtime_error selector :=
  match popularLangs st, otherLangs st with
  | Ok ps, Ok os =>
      if loadingLanguages st then Ok LoadingLanguages
      else
        match map_result option_of ps, map_result option_of os with
        | Ok pj, Ok oj =>
            match map_result mount_option pj, map_result mount_option oj with
            | Ok pe, Ok oe => Ok (Groups pe oe)
            | Throw e, _ | _, Throw e => Throw e
            end
        | Throw e, _ | _, Throw e => Throw e
        end
  | Throw e, _ | _, Throw e => Throw e
  end.

End Options.

(** The setters behind the two selectors and the advanced-options
    toggle. *)
Definition setOutputLanguage (l : jsstring) (st : state) : state :=
  {| url := url st; outputLanguage := l;
     videoLanguageHint := videoLanguageHint st;
     supportedLanguages := supportedLanguages st;
     isValidUrl := isValidUrl st; loadingLanguages := loadingLanguages st;
     showAdvancedOptions := showAdvancedOptions st |}.

Definition setVideoLanguageHint (h : jsstring) (st : state) : state :=
  {| url := url st; outputLanguage := outputLanguage st;
     videoLanguageHint := h;
     supportedLanguages := supportedLanguages st;
     isValidUrl := isValidUrl st; loadingLanguages := loadingLanguages st;
     showAdvancedOptions := showAdvancedOptions st |}.

Definition toggleAdvancedOptions (st : state) : state :=
  {| url := url st; outputLanguage := outputLanguage st;
     videoLanguageHint := videoLanguageHint st;
     supportedLanguages := supportedLanguages st;
     isValidUrl := isValidUrl st; loadingLanguages := loadingLanguages st;
     showAdvancedOptions := negb (showAdvancedOptions st) |}.

(** The [disabled] attribute of the submit button; [loading] is the
    property the page passes down. *)
Definition submit_disabled (loading : bool) (st : state) : bool :=
  loading
  || negb (truthy (VStr (trim (url st))))
  || negb (isValidUrl st)
  || loadingLanguages st.

Section Effects.

Variable VITE_API_URL : value.
Variable NumberToString : Z -> jsstring.
Variable net : network.

(** The effect run when the component mounts. *)
Definition loadLanguages (st : state) (log : list request)
  : state * list request :=
  match getSupportedLanguages VITE_API_URL NumberToString net log with
  | (Ok data, log') =>
      match prop data (js "languages") with
      | Ok langs => (loaded (Some langs) st, log')
      | Throw _ => (loaded None st, log')
      end
  | (Throw _, log') => (loaded None st, log')
  end.

End Effects.

End VideoAnalyzer.

(* ===================================================================== *)
(** * components/ui/tabs.jsx

    The tab components of the older front-end, over React elements whose
    properties are texts, state setters, or absent. *)
(* ===================================================================== *)

Module Tabs.

(** A function-valued property: the setter of the container's own state,
    or one that a parent handed in under its name. *)
Inductive setter :=
| setActiveTab
| outer (name : jsstring).

Inductive pvalue :=
| Absent
| Str (s : jsstring)
| Callback (f : setter).

Definition props := list (jsstring * pvalue).

Fixpoint pget (ps : props) (k : jsstring) : pvalue :=
  match ps with
  | [] => Absent
  | (k', v) :: ps' => if str_eqb k' k then v else pget ps' k
  end.

Inductive kind :=
| TabsK
| TabsListK
| TabsTriggerK
| TabsContentK
| HostK (tag : jsstring).

Inductive element :=
| Element (k : kind) (own : props) (children : list element)
| TextChild (s : jsstring).

(** What a click on a button does: call a setter with an argument, or
    raise. *)
Inductive click :=
| Calls (f : setter) (arg : pvalue)
| Fails (e : runtime_error).

Inductive node :=
| Div (className : jsstring) (children : list node)
| Button (className : jsstring) (onClick : click) (children : list node)
| Host (tag : jsstring) (children : list node)
| Text (s : jsstring)
| Nothing.

(** [a === b] on these properties. *)
Definition strict_eq (a b : pvalue) : bool :=
  match a, b with
  | Absent, Absent => true
  | Str s, Str t => str_eqb s t
  | Callback setActiveTab, Callback setActiveTab => true
  | Callback (outer f), Callback (outer g) => str_eqb f g
  | _, _ => false
  end.

Section Render.

(** How the runtime prints a property other than a text inside a
    template literal. *)
Variable ToString : pvalue -> jsstring.

Definition template (v : pvalue) : jsstring :=
  match v with Str s => s | _ => ToString v end.

(** What [Tabs] adds to each child that is an element. *)
Definition injected (activeTab : pvalue) : props :=
  [(js "activeTab", activeTab); (js "onValueChange", Callback setActiveTab)].

(** An element rendered with the properties [cloneElement] put on top of
    its own.  A nested [Tabs] is in its initial state. *)
Fixpoint render (cloned : props) (e : element) : node :=
  match e with
  | TextChild s => Text s
  | Element k own children =>
      let ps := cloned ++ own in
      match k with
      | TabsK =>
          Div (js "mt-6 " ++ template (pget ps (js "className")))
              (map (render (injected (pget ps (js "defaultValue")))) children)
      | TabsListK =>
          Div (js "flex gap-2 border-b border-zinc-700 pb-2")
              (map (render []) children)
      | TabsTriggerK =>
          let isActive :=
            strict_eq (pget ps (js "activeTab")) (pget ps (js "value")) in
          Button
            (js "px-4 py-2 rounded-t font-medium transition "
             ++ if isActive
                then js "bg-zinc-800 text-white border-b-2 border-blue-500"
                else js "text-gray-400")
            match pget ps (js "onValueChange") with
            | Callback f => Calls f (pget ps (js "value"))
            | _ => Fails TypeError
            end
            (map (render []) children)
      | TabsContentK =>
          if negb (strict_eq (pget ps (js "value")) (pget ps (js "activeTab")))
          then Nothing
          else Div (js "mt-4") (map (render []) children)
      | HostK tag => Host tag (map (render []) children)
      end
  end.

(** The container with its state at [activeTab]. *)
Definition Tabs (activeTab : pvalue) (own : props) (children : list element)
  : node :=
  Div (js "mt-6 " ++ template (pget own (js "className")))
      (map (render (injected activeTab)) children).

End Render.

(** The buttons of a rendering, in document order, by what a click on
    each does. *)
Fixpoint clicks (n : node) : list click :=
  match n with
  | Div _ children | Host _ children => flat_map clicks children
  | Button _ onClick children => onClick :: flat_map clicks children
  | Text _ | Nothing => []
  end.

(** A trigger as the pages write it: a value, a label, no handler of its
    own. *)
Definition trigger (value label : jsstring) : element :=
  Element TabsTriggerK [(js "value", Str value)] [TextChild label].

Definition content (value : jsstring) (children : list element) : element :=
  Element TabsContentK [(js "value", Str value)] children.

End Tabs.

(* ===================================================================== *)
(** * frontend/src/App.jsx: the older front-end *)
(* ===================================================================== *)

Module LegacyApp.

Record state := {
  inputUrl : jsstring;
  responseText : value;
  transcript : value;
  loading : bool;
  activeAgent : jsstring;
  userQuery : jsstring;
  queryResponse : value
}.

Definition initial : state :=
  {| inputUrl := []; responseText := VStr []; transcript := VStr [];
     loading := false; activeAgent := js "agent1"; userQuery := [];
     queryResponse := VStr [] |}.

Definition agents : value :=
  VObj [(js "agent1", VStr (js "gemini"));
        (js "agent2", VStr (js "gpt-3.5-turbo"));
        (js "agent3", VStr (js "claude"))].

Definition bare (url : jsstring) (body : value) : request :=
  {| req_method := POST; req_baseURL := VUndefined; req_url := url;
     req_data := body; req_timeout := 0 |}.

Section Handlers.

Variable net : network.

Definition handleSubmit (st : state) (log : list request)
  : state * list request :=
  match inputUrl st with
  | [] => (st, log)
  | _ =>
      match send net
              (bare (js "http://localhost:8000/api/summary")
                 (VObj [(js "url", VStr (inputUrl st));
                        (js "agent", get agents (activeAgent st))])) log with
      | (Ok res, log') =>
          match prop (data res) (js "summary"),
                prop (data res) (js "transcript") with
          | Ok summary, Ok text =>
              ({| inputUrl := inputUrl st;
                  responseText := or_else summary (VStr []);
                  transcript := or_else text (VStr []);
                  loading := false; activeAgent := activeAgent st;
                  userQuery := userQuery st;
                  queryResponse := queryResponse st |}, log')
          | _, _ =>
              ({| inputUrl := inputUrl st; responseText := responseText st;
                  transcript := transcript st; loading := false;
                  activeAgent := activeAgent st; userQuery := userQuery st;
                  queryResponse := queryResponse st |}, log')
          end
      | (Throw _, log') =>
          ({| inputUrl := inputUrl st; responseText := responseText st;
              transcript := transcript st; loading := false;
              activeAgent := activeAgent st; userQuery := userQuery st;
              queryResponse := queryResponse st |}, log')
      end
  end.

Definition handleQuery (st : state) (log : list request)
  : state * list request :=
  if negb (truthy (VStr (userQuery st))) || negb (truthy (transcript st))
  then (st, log)
  else
    let answered (v : value) :=
      {| inputUrl := inputUrl st; responseText := responseText st;
         transcript := transcript st; loading := false;
         activeAgent := activeAgent st; userQuery := userQuery st;
         queryResponse := v |} in
    match send net
            (bare (js "http://localhost:8000/api/query")
               (VObj [(js "transcript", transcript st);
                      (js "query", VStr (userQuery st))])) log with
    | (Ok res, log') =>
        match prop (data res) (js "response") with
        | Ok answer => (answered (or_else answer (VStr [])), log')
        | Throw _ => (answered (queryResponse st), log')
        end
    | (Throw _, log') => (answered (queryResponse st), log')
    end.

End Handlers.

(** The two requests of the page, for a given state. *)
Definition summary_request (st : state) : request :=
  bare (js "http://localhost:8000/api/summary")
    (VObj [(js "url", VStr (inputUrl st));
           (js "agent", get agents (activeAgent st))]).

Definition query_request (st : state) : request :=
  bare (js "http://localhost:8000/api/query")
    (VObj [(js "transcript", transcript st);
           (js "query", VStr (userQuery st))]).

(** The agent tabs as the page writes them. *)
Definition agent_tabs : list Tabs.element :=
  [ Tabs.Element Tabs.TabsListK []
      [ Tabs.trigger (js "agent1") (js "Gemini");
        Tabs.trigger (js "agent2") (js "GPT-4");
        Tabs.trigger (js "agent3") (js "Claude") ];
    Tabs.content (js "agent1")
      [ Tabs.Element (Tabs.HostK (js "p"))
          [(js "className", Tabs.Str (js "text-sm text-gray-300"))]
          [Tabs.TextChild (js "You're using Gemini AI.")] ];
    Tabs.content (js "agent2")
      [ Tabs.Element (Tabs.HostK (js "p"))
          [(js "className", Tabs.Str (js "text-sm text-gray-300"))]
          [Tabs.TextChild (js "You're using OpenAI GPT-4.")] ];
    Tabs.content (js "agent3")
      [ Tabs.Element (Tabs.HostK (js "p"))
          [(js "className", Tabs.Str (js "text-sm text-gray-300"))]
          [Tabs.TextChild (js "You're using Anthropic Claude.")] ] ].

(** The page: the state of [App] and the state the [Tabs] container
    keeps for itself, which starts at [defaultValue]. *)
Record page := { app : state; shownTab : Tabs.pvalue }.

Definition start : page :=
  {| app := initial; shownTab := Tabs.Str (activeAgent initial) |}.

Definition setInputUrl (s : jsstring) (st : state) : state :=
  {| inputUrl := s; responseText := responseText st;
     transcript := transcript st; loading := loading st;
     activeAgent := activeAgent st; userQuery := userQuery st;
     queryResponse := queryResponse st |}.

Definition setUserQuery (s : jsstring) (st : state) : state :=
  {| inputUrl := inputUrl st; responseText := responseText st;
     transcript := transcript st; loading := loading st;
     activeAgent := activeAgent st; userQuery := s;
     queryResponse := queryResponse st |}.

Definition setActiveAgent (s : jsstring) (st : state) : state :=
  {| inputUrl := inputUrl st; responseText := responseText st;
     transcript := transcript st; loading := loading st;
     activeAgent := s; userQuery := userQuery st;
     queryResponse := queryResponse st |}.

Section View.

Variable ToString : Tabs.pvalue -> jsstring.

(** [<Tabs defaultValue={activeAgent} onValueChange={setActiveAgent}
    className=...>] with the agent tabs inside. *)
Definition tabs_view (pg : page) : Tabs.node :=
  Tabs.Tabs ToString (shownTab pg)
    [(js "defaultValue", Tabs.Str (activeAgent (app pg)));
     (js "onValueChange", Tabs.Callback (Tabs.outer (js "setActiveAgent")));
     (js "className", Tabs.Str (js "w-full max-w-3xl mt-10"))]
    agent_tabs.

End View.

(** What the user can do on the page. *)
Inductive event :=
| ChangeUrl (s : jsstring)
| ChangeQuery (s : jsstring)
| Summarize
| AskAI
| ClickTab (i : nat).

Section Run.

Variable ToString : Tabs.pvalue -> jsstring.
Variable net : network.

(** A click on a tab button.  An exception in the handler leaves the
    page as it was. *)
Definition click_tab (i : nat) (pg : page) : page :=
  match nth_error (Tabs.clicks (tabs_view ToString pg)) i with
  | Some (Tabs.Calls Tabs.setActiveTab v) => {| app := app pg; shownTab := v |}
  | Some (Tabs.Calls (Tabs.outer _) (Tabs.Str s)) =>
      {| app := setActiveAgent s (app pg); shownTab := shownTab pg |}
  | _ => pg
  end.

Definition step (ev : event) (pg : page) (log : list request)
  : page * list request :=
  match ev with
  | ChangeUrl s =>
      ({| app := setInputUrl s (app pg); shownTab := shownTab pg |}, log)
  | ChangeQuery s =>
      ({| app := setUserQuery s (app pg); shownTab := shownTab pg |}, log)
  | Summarize =>
      let '(st, log') := handleSubmit net (app pg) log in
      ({| app := st; shownTab := shownTab pg |}, log')
  | AskAI =>
      let '(st, log') := handleQuery net (app pg) log in
      ({| app := st; shownTab := shownTab pg |}, log')
  | ClickTab i => (click_tab i pg, log)
  end.

Fixpoint run (evs : list event) (pg : page) (log : list request)
  : page * list request :=
  match evs with
  | [] => (pg, log)
  | ev :: evs' => let '(pg', log') := step ev pg log in run evs' pg' log'
  end.

End Run.

End LegacyApp.

(* ===================================================================== *)
(** * The page: how App.jsx wires the components *)
(* ===================================================================== *)

Module Page.

Section Wiring.

Variable VITE_API_URL : value.
Variable NumberToString : Z -> jsstring.
Variable net : network.

(** [<VideoAnalyzer onAnalyze={handleAnalyzeVideo} />]: submitting the
    form. *)
Definition submit (form : VideoAnalyzer.state) (app : App.state)
    (log : list request)
  : VideoAnalyzer.state * (App.state * list request) :=
  VideoAnalyzer.handleSubmit
    (fun url outputLanguage videoLanguageHint
         (page : App.state * list request) =>
       App.handleAnalyzeVideo VITE_API_URL NumberToString net
         url outputLanguage videoLanguageHint (fst page) (snd page))
    form (app, log).

(** [{analysisData && <AnalysisResults onQuery={handleQuery} />}]:
    submitting the chat form, which exists only while there is a result. *)
Definition ask (viewer : AnalysisResults.state) (app : App.state)
    (log : list request) : AnalysisResults.state * list request :=
  if truthy (App.analysisData app)
  then AnalysisResults.handleQuery
         (App.handleQuery VITE_API_URL NumberToString net app) viewer log
  else (viewer, log).

(** The page of the new front-end: the form, the page-level state, and
    the viewer, which is mounted only while there is a result and starts
    afresh with each one. *)
Record page := {
  form : VideoAnalyzer.state;
  app : App.state;
  viewer : AnalysisResults.state
}.

Definition start : page :=
  {| form := VideoAnalyzer.initial; app := App.initial;
     viewer := AnalysisResults.initial |}.

Inductive event :=
| Mount
| ChangeUrl (s : jsstring)
| SelectOutputLanguage (s : jsstring)
| SelectHint (s : jsstring)
| ToggleAdvanced
| Submit
| SelectTab (t : AnalysisResults.tab)
| ChangeQuestion (s : jsstring)
| ChangeSearch (s : jsstring)
| Ask.

Definition with_form (f : VideoAnalyzer.state) (pg : page) : page :=
  {| form := f; app := app pg; viewer := viewer pg |}.

(** An event of the viewer reaches it only while it is mounted. *)
Definition with_viewer
    (f : AnalysisResults.state -> AnalysisResults.state) (pg : page) : page :=
  if truthy (App.analysisData (app pg))
  then {| form := form pg; app := app pg; viewer := f (viewer pg) |}
  else pg.

Definition step (ev : event) (pg : page) (log : list request)
  : page * list request :=
  match ev with
  | Mount =>
      let '(f, log') :=
        VideoAnalyzer.loadLanguages VITE_API_URL NumberToString net
          (form pg) log in
      (with_form f pg, log')
  | ChangeUrl s => (with_form (VideoAnalyzer.handleUrlChange s (form pg)) pg, log)
  | SelectOutputLanguage s =>
      (with_form (VideoAnalyzer.setOutputLanguage s (form pg)) pg, log)
  | SelectHint s =>
      (with_form (VideoAnalyzer.setVideoLanguageHint s (form pg)) pg, log)
  | ToggleAdvanced =>
      (with_form (VideoAnalyzer.toggleAdvancedOptions (form pg)) pg, log)
  | Submit =>
      let '(f, (a, v, log')) :=
        VideoAnalyzer.handleSubmit
          (fun url outputLanguage videoLanguageHint
               (side : App.state * AnalysisResults.state * list request) =>
             let '(a, _, l) := side in
             let '(a', l') :=
               App.handleAnalyzeVideo VITE_API_URL NumberToString net
                 url outputLanguage videoLanguageHint a l in
             (a', AnalysisResults.initial, l'))
          (form pg) (app pg, viewer pg, log) in
      ({| form := f; app := a; viewer := v |}, log')
  | SelectTab t => (with_viewer (AnalysisResults.setActiveTab t) pg, log)
  | ChangeQuestion s => (with_viewer (AnalysisResults.setQuery s) pg, log)
  | ChangeSearch s => (with_viewer (AnalysisResults.setSearchTerm s) pg, log)
  | Ask =>
      let '(v, log') := ask (viewer pg) (app pg) log in
      ({| form := form pg; app := app pg; viewer := v |}, log')
  end.

Fixpoint run (evs : list event) (pg : page) (log : list request)
  : page * list request :=
  match evs with
  | [] => (pg, log)
  | ev :: evs' => let '(pg', log') := step ev pg log in run evs' pg' log'
  end.

End Wiring.

(** Reading the log: which requests ask for an analysis and which put a
    question, and the output language of the latest analysis asked for. *)
Definition is_summary (r : request) : bool :=
  str_eqb (req_url r) (js "/api/advanced-summary").

Definition is_query (r : request) : bool :=
  str_eqb (req_url r) (js "/api/advanced-query").

Definition output_language_of (r : request) : value :=
  get (req_data r) (js "output_language").

Fixpoint latest_language (log : list request) : option value :=
  match log with
  | [] => None
  | r :: log' =>
      match latest_language log' with
      | Some l => Some l
      | None => if is_summary r then Some (output_language_of r) else None
      end
  end.

(** What holds of the page and the log together: while no analysis was
    asked for there is no transcript, and afterwards the page's language
    is the one of the latest analysis asked for. *)
Definition page_inv (pg : page) (log : list request) : Prop :=
  match latest_language log with
  | None => truthy (get (App.analysisData (app pg)) (js "transcript")) = false
  | Some l => App.selectedLanguage (app pg) = l
              /\ default (VStr (js "en")) l = l
  end.

(** What holds of the log alone: a question comes after an analysis and
    names its language. *)
Definition log_inv (log : list request) : Prop :=
  forall l1 q l2,
    log = l1 ++ q :: l2 -> is_query q = true ->
    latest_language l1 = Some (output_language_of q).

(** Two networks to run the handlers against: one that is unreachable and
    one that answers every call with status 200 and the body [d]. *)
Definition unreachable : axios_error :=
  {| message := js "Network Error"; err_response := None;
     err_request := true |}.

Definition offline : network := fun _ _ => Rejected unreachable.

Definition serving (d : value) : network :=
  fun _ _ => Fulfilled {| status := 200; data := d |}.



(** The form of the specification's scenario: the sample URL, Korean
    output, no hint. *)
Definition scenario_form : VideoAnalyzer.state :=
  {| VideoAnalyzer.url := js "https://www.youtube.com/watch?v=dQw4w9WgXcQ";
     VideoAnalyzer.outputLanguage := js "ko";
     VideoAnalyzer.videoLanguageHint := [];
     VideoAnalyzer.supportedLanguages := VArr Api.fallback_languages;
     VideoAnalyzer.isValidUrl := true;
     VideoAnalyzer.loadingLanguages := false;
     VideoAnalyzer.showAdvancedOptions := false |}.

(** The same form with a text that is no video address. *)
Definition stray_form : VideoAnalyzer.state :=
  VideoAnalyzer.set_url (js "not-a-url") false scenario_form.

(** The older front-end with the same text typed in. *)
Definition stray_legacy : LegacyApp.state :=
  {| LegacyApp.inputUrl := js "not-a-url";
     LegacyApp.responseText := VStr [];
     LegacyApp.transcript := VStr [];
     LegacyApp.loading := false;
     LegacyApp.activeAgent := js "agent1";
     LegacyApp.userQuery := [];
     LegacyApp.queryResponse := VStr [] |}.

(** An answer of the server that carries a transcript and a reply, the
    page once it holds that answer, and a viewer with a question typed
    in. *)
Definition sample_result : value :=
  VObj [(js "transcript", VStr (js "We're no strangers to love"));
        (js "response", VStr (js "It is a song."))].

Definition analysed : App.state :=
  {| App.analysisData := sample_result; App.loading := false;
     App.error := VNull; App.selectedLanguage := VStr (js "ko") |}.

Definition asking : AnalysisResults.state :=
  AnalysisResults.setQuery (js "Summarize the conclusion")
    AnalysisResults.initial.

(** The older page with a video summarized, a new address typed in and
    a question waiting. *)
Definition legacy_mid : LegacyApp.page :=
  {| LegacyApp.app :=
       {| LegacyApp.inputUrl := js "https://youtu.be/dQw4w9WgXcQ";
          LegacyApp.responseText := VStr (js "A song.");
          LegacyApp.transcript := VStr (js "We're no strangers to love");
          LegacyApp.loading := false;
          LegacyApp.activeAgent := js "agent1";
          LegacyApp.userQuery := js "What was said?";
          LegacyApp.queryResponse := VStr [] |};
     LegacyApp.shownTab := Tabs.Str (js "agent1") |}.

(** The printing of integers for the sample runs: the digits, as the
    runtime prints an integer below ten to the twenty-first. *)
Definition plain (n : Z) : jsstring :=
  match n with
  | Zneg p => js "-" ++ decimal (Npos p)
  | _ => decimal (Z.to_N n)
  end.



End Page.

(* ===================================================================== *)
(** * Facts about the regular-expression model *)
(* ===================================================================== *)

Unset Implicit Arguments.

Section MatcherFacts.

Import Regex.

Variable ic : bool.
Variable up : code_unit -> code_unit.

Lemma step_local (p : code_unit -> bool) : local (step p).
Proof.
  intros k k' x H. unfold step.
  destruct (rest x) as [|ch tl] eqn:E; [reflexivity|].
  destruct (p ch); [|reflexivity]. apply H. cbn. lia.
Qed.

Lemma repeat_local (body : continuation -> mstate -> option mstate)
    (gs : list nat) :
  local body ->
  forall (fuel lo : nat) (hi : option nat),
    local (fun k => repeat body gs k fuel lo hi).
Proof.
  intros Hb fuel. induction fuel as [|fuel IH]; intros lo hi k k' x H.
  - reflexivity.
  - cbn [repeat].
    assert (Hd : body
              (fun y =>
                 if Nat.eqb lo 0
                    && Nat.eqb (List.length (rest y)) (List.length (rest x))
                 then None
                 else repeat body gs k fuel (Nat.pred lo)
                        (option_map Nat.pred hi) y) (clear gs x)
            = body
              (fun y =>
                 if Nat.eqb lo 0
                    && Nat.eqb (List.length (rest y)) (List.length (rest x))
                 then None
                 else repeat body gs k' fuel (Nat.pred lo)
                        (option_map Nat.pred hi) y) (clear gs x)).
    { apply Hb. intros y Hy. destruct (_ && _); [reflexivity|].
      apply IH. intros z Hz. apply H. cbn [clear rest] in Hy. lia. }
    rewrite Hd, (H x (le_n _)).
    destruct hi as [[|h]|]; reflexivity.
Qed.

Lemma m_local (r : regex) : local (m ic up r).
Proof.
  induction r as [|c| |rs|a IHa b IHb|a IHa b IHb|lo hi a IHa|n a IHa];
    intros k k' x H; cbn [m].
  - apply H. lia.
  - now apply step_local.
  - now apply step_local.
  - now apply step_local.
  - apply IHa. intros y Hy. apply IHb. intros z Hz. apply H. lia.
  - rewrite (IHa k k' x H), (IHb k k' x H). reflexivity.
  - now apply repeat_local.
  - apply IHa. intros y Hy. apply H. exact Hy.
Qed.

(** The rounds allotted to a quantifier are never used up: any larger
    allotment gives the same result. *)
Lemma repeat_fuel (body : continuation -> mstate -> option mstate)
    (gs : list nat) (k : continuation) :
  local body ->
  forall (fuel fuel' lo : nat) (hi : option nat) (x : mstate),
    lo + List.length (rest x) < fuel ->
    lo + List.length (rest x) < fuel' ->
    repeat body gs k fuel lo hi x = repeat body gs k fuel' lo hi x.
Proof.
  intros Hb fuel.
  induction fuel as [|fuel IH]; intros fuel' lo hi x Hf Hf'; [lia|].
  destruct fuel' as [|fuel']; [lia|]. cbn [repeat].
  assert (Hd : body
            (fun y =>
               if Nat.eqb lo 0
                  && Nat.eqb (List.length (rest y)) (List.length (rest x))
               then None
               else repeat body gs k fuel (Nat.pred lo)
                      (option_map Nat.pred hi) y) (clear gs x)
          = body
            (fun y =>
               if Nat.eqb lo 0
                  && Nat.eqb (List.length (rest y)) (List.length (rest x))
               then None
               else repeat body gs k fuel' (Nat.pred lo)
                      (option_map Nat.pred hi) y) (clear gs x)).
  { apply Hb. intros y Hy. cbn [clear rest] in Hy.
    destruct (Nat.eqb lo 0) eqn:El; cbn [andb].
    - apply Nat.eqb_eq in El. subst lo.
      destruct (Nat.eqb_spec (List.length (rest y)) (List.length (rest x)));
        [reflexivity|].
      apply IH; cbn; lia.
    - apply Nat.eqb_neq in El. apply IH; lia. }
  rewrite Hd. reflexivity.
Qed.

End MatcherFacts.

Section RegexFacts.

Import Regex.

Variable up : code_unit -> code_unit.

Lemma forallb_pointwise {A : Type} (f g : A -> bool) (l : list A) :
  (forall a, f a = g a) -> forallb f l = forallb g l.
Proof.
  intros H. induction l as [|a l IH]; simpl; [reflexivity|].
  now rewrite H, IH.
Qed.

Lemma clear_nil (x : mstate) : clear [] x = x.
Proof.
  destruct x as [r cs]. unfold clear. simpl. f_equal.
  induction cs as [|c cs IH]; simpl; [reflexivity | now rewrite IH].
Qed.

Lemma mstate_eta (x : mstate) : {| rest := rest x; caps := caps x |} = x.
Proof. now destruct x. Qed.

(** A run of pattern characters reads exactly its own text. *)
Lemma m_literal (p : jsstring) (k : continuation) (x : mstate) :
  m false up (VideoAnalyzer.literal p) k x =
  if VideoAnalyzer.starts_with p (rest x)
  then k {| rest := skipn (List.length p) (rest x); caps := caps x |}
  else None.
Proof.
  revert x. induction p as [|c p IH]; intros x; simpl.
  - now rewrite mstate_eta.
  - unfold step. destruct (rest x) as [|ch tl] eqn:E; [reflexivity|].
    unfold same_char, Canonicalize. simpl.
    destruct (c =? ch)%N; simpl; [|reflexivity].
    rewrite IH. reflexivity.
Qed.

Lemma in_id_class (ch : code_unit) :
  in_class false up VideoAnalyzer.id_class ch = VideoAnalyzer.id_char ch.
Proof.
  unfold in_class, VideoAnalyzer.id_class, VideoAnalyzer.id_char. simpl.
  rewrite orb_false_r, !orb_assoc.
  replace ((95 <=? ch) && (ch <=? 95))%N with (ch =? 95)%N.
  replace ((45 <=? ch) && (ch <=? 45))%N with (ch =? 45)%N.
  reflexivity.
  - destruct (N.eqb_spec ch 45), (N.leb_spec 45 ch), (N.leb_spec ch 45);
      simpl; try reflexivity; lia.
  - destruct (N.eqb_spec ch 95), (N.leb_spec 95 ch), (N.leb_spec ch 95);
      simpl; try reflexivity; lia.
Qed.

(** Exactly [n] units of a class. *)
Lemma repeat_class (rs : list (code_unit * code_unit)) (k : continuation) :
  forall (n fuel : nat) (x : mstate),
    n < fuel ->
    repeat (m false up (Class rs)) [] k fuel n (Some n) x =
    if (n <=? List.length (rest x))
       && forallb (in_class false up rs) (firstn n (rest x))
    then k {| rest := skipn n (rest x); caps := caps x |}
    else None.
Proof.
  induction n as [|n IH]; intros fuel x Hf.
  - destruct fuel as [|fuel]; [lia|]. simpl. now rewrite mstate_eta.
  - destruct fuel as [|fuel]; [lia|].
    cbn [repeat option_map Nat.pred Nat.eqb andb].
    rewrite clear_nil. cbn [m]. unfold step.
    destruct (rest x) as [|ch tl] eqn:E; [reflexivity|].
    cbn [firstn forallb skipn List.length].
    destruct (in_class false up rs ch); cbn [andb].
    + rewrite IH by lia. cbn [rest caps].
      replace (S n <=? S (List.length tl)) with (n <=? List.length tl)
        by reflexivity.
      reflexivity.
    + now rewrite andb_false_r.
Qed.


Lemma m_Seq (ic : bool) (a b : regex) (k : continuation) (x : mstate) :
  m ic up (Seq a b) k x = m ic up a (m ic up b k) x.
Proof. reflexivity. Qed.

Lemma m_Group (ic : bool) (n : nat) (a : regex) (k : continuation)
    (x : mstate) :
  m ic up (Group n a) k x = m ic up a (fun y => k (capture n x y)) x.
Proof. reflexivity. Qed.

Lemma m_Empty (ic : bool) (k : continuation) (x : mstate) :
  m ic up Empty k x = k x.
Proof. reflexivity. Qed.

Lemma m_exactly (n : nat) (rs : list (code_unit * code_unit))
    (k : continuation) (x : mstate) :
  m false up (Quant n (Some n) (Class rs)) k x =
  if (n <=? List.length (rest x))
     && forallb (in_class false up rs) (firstn n (rest x))
  then k {| rest := skipn n (rest x); caps := caps x |}
  else None.
Proof.
  change (m false up (Quant n (Some n) (Class rs)) k x)
    with (repeat (m false up (Class rs)) [] k
            (n + List.length (rest x) + 1) n (Some n) x).
  apply repeat_class. lia.
Qed.

Lemma match_at_url_pattern (prefix s : jsstring) :
  matched (match_at false up (VideoAnalyzer.url_pattern prefix) s)
  = VideoAnalyzer.shape_at prefix s.
Proof.
  unfold match_at, VideoAnalyzer.url_pattern, VideoAnalyzer.shape_at.
  rewrite m_Seq, m_literal. cbn [rest caps].
  destruct (VideoAnalyzer.starts_with prefix s); [|reflexivity].
  rewrite m_Seq, m_Group, m_Seq, m_exactly. cbn [rest andb].
  rewrite (forallb_pointwise _ _ _ in_id_class).
  destruct (11 <=? _); [|reflexivity]. cbn [andb].
  destruct (forallb _ _); reflexivity.
Qed.

Lemma test_url_pattern (prefix s : jsstring) :
  test false up (VideoAnalyzer.url_pattern prefix) s
  = VideoAnalyzer.occurs prefix s.
Proof.
  induction s as [|c s IH].
  - cbn [test VideoAnalyzer.occurs]. rewrite <- match_at_url_pattern.
    now destruct (match_at _ _ _ _).
  - cbn [test VideoAnalyzer.occurs]. rewrite <- match_at_url_pattern, <- IH.
    now destruct (match_at _ _ _ _).
Qed.

Lemma patterns_url_patterns :
  VideoAnalyzer.patterns
  = map VideoAnalyzer.url_pattern VideoAnalyzer.url_prefixes.
Proof. vm_compute. reflexivity. Qed.

Lemma starts_with_app (p s : jsstring) :
  VideoAnalyzer.starts_with p s = true <->
  exists t, s = p ++ t.
Proof.
  revert s. induction p as [|c p IH]; intros s; simpl.
  - split; eauto.
  - destruct s as [|d s].
    + split; [discriminate | intros [t Ht]; discriminate].
    + rewrite andb_true_iff, N.eqb_eq, IH. split.
      * intros [-> [t ->]]. now exists t.
      * intros [t Ht]. injection Ht as -> ->. eauto.
Qed.

Lemma shape_at_spec (p s : jsstring) :
  VideoAnalyzer.shape_at p s = true <->
  exists id post, s = p ++ id ++ post /\ List.length id = 11
                  /\ forallb VideoAnalyzer.id_char id = true.
Proof.
  unfold VideoAnalyzer.shape_at. rewrite !andb_true_iff, starts_with_app.
  split.
  - intros [[[t ->] Hlen] Hall].
    rewrite skipn_app, skipn_all, Nat.sub_diag in *.
    cbn [skipn app] in Hlen, Hall.
    apply Nat.leb_le in Hlen.
    exists (firstn 11 t), (skipn 11 t). rewrite firstn_skipn.
    repeat split; [|exact Hall]. rewrite length_firstn. lia.
  - intros (id & post & -> & Hlen & Hall).
    rewrite skipn_app, skipn_all, Nat.sub_diag. cbn [skipn app].
    repeat split; eauto.
    + apply Nat.leb_le. rewrite length_app. lia.
    + rewrite firstn_app, <- Hlen, firstn_all, Nat.sub_diag.
      cbn [firstn]. now rewrite app_nil_r.
Qed.

Lemma occurs_spec (p s : jsstring) :
  VideoAnalyzer.occurs p s = true <->
  exists pre id post, s = pre ++ p ++ id ++ post /\ List.length id = 11
                      /\ forallb VideoAnalyzer.id_char id = true.
Proof.
  induction s as [|c s IH]; cbn [VideoAnalyzer.occurs];
    rewrite orb_true_iff, shape_at_spec.
  - split.
    + intros [(id & post & H) | H]; [|discriminate]. now exists [], id, post.
    + intros (pre & id & post & H & Hr). left.
      destruct pre; [|discriminate]. now exists id, post.
  - rewrite IH. split.
    + intros [(id & post & H) | (pre & id & post & -> & H)].
      * now exists [], id, post.
      * now exists (c :: pre), id, post.
    + intros (pre & id & post & H & Hr). destruct pre as [|d pre].
      * left. now exists id, post.
      * right. injection H as -> ->. now exists pre, id, post.
Qed.

End RegexFacts.

(** The four literals accept exactly the four shapes. *)
Lemma validateYouTubeUrl_shapes (u : jsstring) :
  VideoAnalyzer.validateYouTubeUrl u = true <->
  exists prefix pre id post,
    In prefix VideoAnalyzer.url_prefixes
    /\ u = pre ++ prefix ++ id ++ post
    /\ List.length id = 11
    /\ forallb VideoAnalyzer.id_char id = true.
Proof.
  unfold VideoAnalyzer.validateYouTubeUrl.
  rewrite patterns_url_patterns, existsb_exists. split.
  - intros (r & Hin & Ht). apply in_map_iff in Hin as (p & <- & Hp).
    rewrite test_url_pattern in Ht. apply occurs_spec in Ht.
    destruct Ht as (pre & id & post & H). now exists p, pre, id, post.
  - intros (p & pre & id & post & Hp & H).
    exists (VideoAnalyzer.url_pattern p). split.
    + now apply in_map.
    + rewrite test_url_pattern. apply occurs_spec. now exists pre, id, post.
Qed.

Lemma trim_start_In (c : code_unit) (s : jsstring) :
  In c s -> is_space c = false -> In c (trim_start s).
Proof.
  intros Hin Hc. induction s as [|d s IH]; [easy|].
  cbn [trim_start]. destruct (is_space d) eqn:Ed; [|exact Hin].
  destruct Hin as [-> | Hin]; [congruence | auto].
Qed.

Lemma trim_keeps (c : code_unit) (s : jsstring) :
  In c s -> is_space c = false -> trim s <> [].
Proof.
  intros Hin Hc. unfold trim.
  assert (H : In c (rev (trim_start (rev (trim_start s))))).
  { apply -> in_rev. apply trim_start_In; [|exact Hc].
    apply -> in_rev. now apply trim_start_In. }
  intros E. now rewrite E in H.
Qed.

(** A text that matches a pattern is not blank. *)
Lemma valid_url_not_blank (u : jsstring) :
  VideoAnalyzer.validateYouTubeUrl u = true -> trim u <> [].
Proof.
  intros H. apply validateYouTubeUrl_shapes in H.
  destruct H as (p & pre & id & post & Hp & -> & _).
  apply trim_keeps with (c := 121%N); [|reflexivity].
  apply in_or_app. right. apply in_or_app. left.
  cbn in Hp. destruct Hp as [<- | [<- | [<- | [<- | []]]]]; now left.
Qed.

(* ===================================================================== *)
(** * Searching for a plain text *)
(* ===================================================================== *)

Section PlainTerm.

Import Regex.

Variable up : code_unit -> code_unit.

Lemma plain_cons (c : code_unit) (term : jsstring) :
  plain (c :: term) = true -> is_syntax_char c = false /\ plain term = true.
Proof.
  unfold plain. cbn [forallb]. rewrite andb_true_iff, negb_true_iff. tauto.
Qed.

Lemma not_syntax (c : code_unit) :
  is_syntax_char c = false ->
  (c =? c_dot)%N = false /\ (c =? c_bslash)%N = false
  /\ (c =? c_lbrack)%N = false /\ (c =? c_lparen)%N = false
  /\ (c =? c_rparen)%N = false /\ (c =? c_bar)%N = false
  /\ (c =? c_star)%N = false /\ (c =? c_plus)%N = false
  /\ (c =? c_quest)%N = false /\ (c =? c_lbrace)%N = false.
Proof.
  unfold is_syntax_char. cbn [existsb]. rewrite !orb_false_iff. tauto.
Qed.

(** No quantifier follows where the next unit is plain or closes the
    group. *)
Lemma quantifier_absent (s : jsstring) :
  match s with
  | [] => True
  | c :: _ => is_syntax_char c = false \/ c = c_rparen
  end ->
  quantifier s = Parsed (None, s).
Proof.
  destruct s as [|c s]; [reflexivity|]. intros [H | ->]; [|reflexivity].
  apply not_syntax in H. unfold quantifier.
  destruct H as (_ & _ & _ & _ & _ & _ & -> & -> & -> & -> ). reflexivity.
Qed.

Lemma term_plain (fuel : nat) (c : code_unit) (s : jsstring) (g : nat) :
  is_syntax_char c = false ->
  match s with
  | [] => True
  | d :: _ => is_syntax_char d = false \/ d = c_rparen
  end ->
  term (S fuel) (c :: s) g = Parsed (Char c, s, g).
Proof.
  intros Hc Hs. cbn [term]. rewrite Hc.
  apply not_syntax in Hc.
  destruct Hc as (-> & -> & -> & -> & _ & _ & -> & -> & -> & _).
  cbn [orb pbind]. now rewrite (quantifier_absent s Hs).
Qed.

Lemma alternative_plain (text : jsstring) :
  plain text = true ->
  forall (fuel : nat) (rest : jsstring) (g : nat),
    List.length text < fuel ->
    alternative fuel (text ++ c_rparen :: rest) g
    = Parsed (VideoAnalyzer.literal text, c_rparen :: rest, g).
Proof.
  induction text as [|c text IH]; intros Hp fuel rest g Hf.
  - destruct fuel as [|fuel]; [cbn in Hf; lia | reflexivity].
  - apply plain_cons in Hp as [Hc Hp].
    destruct fuel as [|fuel]; [cbn in Hf; lia|].
    cbn [alternative app].
    destruct (not_syntax c Hc) as (_ & _ & _ & _ & -> & -> & _).
    cbn [orb]. destruct fuel as [|fuel]; [cbn in Hf; lia|].
    rewrite term_plain; [|exact Hc|].
    + cbn [pbind]. rewrite IH; [reflexivity | exact Hp | cbn in Hf; lia].
    + destruct text as [|d text]; [now right|].
      left. now apply plain_cons in Hp.
Qed.

(** The pattern built around a plain text is one group that reads the
    text. *)
Lemma pattern_plain (text : jsstring) :
  plain text = true -> text <> [] ->
  pattern (js "(" ++ text ++ js ")")
  = Parsed (Seq (Group 1 (VideoAnalyzer.literal text)) Empty, 1).
Proof.
  intros Hp Hne. unfold pattern.
  change (js "(" ++ text ++ js ")") with (c_lparen :: text ++ [c_rparen]).
  remember (c_lparen :: text ++ [c_rparen]) as src eqn:Esrc.
  assert (Hlen : List.length src = S (S (List.length text))).
  { subst src. cbn. rewrite length_app. cbn. lia. }
  rewrite Hlen.
  replace (4 * S (S (List.length text)) + 4)
    with (S (S (S (S (4 * List.length text + 8))))) by lia.
  subst src. destruct text as [|q text]; [easy|].
  pose proof (plain_cons _ _ Hp) as [Hq _].
  destruct (not_syntax q Hq) as (_ & _ & _ & _ & _ & _ & _ & _ & Hquest & _).
  cbn [disjunction alternative term app N.eqb c_lparen c_bar c_rparen c_dot
       c_bslash c_lbrack Pos.eqb orb pbind].
  rewrite Hquest.
  change (q :: text ++ [c_rparen]) with ((q :: text) ++ c_rparen :: []).
  rewrite alternative_plain; [|exact Hp | cbn; lia].
  reflexivity.
Qed.

Lemma m_literal_ignoring_case (p : jsstring) (k : continuation)
    (x : mstate) :
  m true up (VideoAnalyzer.literal p) k x =
  if AnalysisResults.occurs_here up p (rest x)
  then k {| rest := skipn (List.length p) (rest x); caps := caps x |}
  else None.
Proof.
  revert x. induction p as [|c p IH]; intros x.
  - cbn. now rewrite mstate_eta.
  - cbn [VideoAnalyzer.literal fold_right m AnalysisResults.occurs_here].
    unfold step. destruct (rest x) as [|ch tl] eqn:E; [reflexivity|].
    destruct (same_char true up c ch); [|reflexivity].
    change (fold_right (fun c r => Seq (Char c) r) Empty p)
      with (VideoAnalyzer.literal p).
    rewrite IH. reflexivity.
Qed.

Lemma occurs_here_length (term s : jsstring) :
  AnalysisResults.occurs_here up term s = true ->
  List.length term <= List.length s.
Proof.
  revert s. induction term as [|c term IH]; intros s; cbn; [lia|].
  destruct s as [|d s]; [discriminate|].
  rewrite andb_true_iff. intros [_ H]. apply IH in H. cbn. lia.
Qed.

Lemma substitute_mark (hit h : jsstring) :
  substitute AnalysisResults.mark_template hit [(1, h)] 1
  = Some (AnalysisResults.marked h).
Proof. vm_compute. reflexivity. Qed.

(** A match of the group at the head of [s] reads the text there, letter
    case aside, and captures what it read. *)
Lemma match_at_plain (term s : jsstring) :
  match_at true up (Seq (Group 1 (VideoAnalyzer.literal term)) Empty) s
  = if AnalysisResults.occurs_here up term s
    then Some {| rest := skipn (List.length term) s;
                 caps := [(1, firstn (List.length term) s)] |}
    else None.
Proof.
  unfold match_at. rewrite m_Seq, m_Group, m_literal_ignoring_case.
  cbn [rest caps].
  destruct (AnalysisResults.occurs_here up term s) eqn:E; [|reflexivity].
  rewrite m_Empty. unfold capture. cbn [rest caps].
  apply occurs_here_length in E.
  rewrite length_skipn.
  replace (List.length s - (List.length s - List.length term))
    with (List.length term) by lia.
  reflexivity.
Qed.

(** For a plain text the replacement wraps exactly its occurrences. *)
Lemma replace_plain (term : jsstring) :
  term <> [] ->
  forall (s : jsstring) (skip : nat),
    replace_from true up (Seq (Group 1 (VideoAnalyzer.literal term)) Empty) 1
      AnalysisResults.mark_template s skip
    = Some (AnalysisResults.mark_occurrences up term s skip).
Proof.
  intros Hne s. induction s as [|c s IH]; intros skip.
  - destruct skip as [|skip]; [|reflexivity].
    cbn [replace_from AnalysisResults.mark_occurrences].
    rewrite match_at_plain.
    destruct (AnalysisResults.occurs_here up term []) eqn:E; [|reflexivity].
    apply occurs_here_length in E. cbn in E.
    destruct Hne. apply length_zero_iff_nil. lia.
  - destruct skip as [|skip];
      cbn [replace_from AnalysisResults.mark_occurrences]; [|apply IH].
    rewrite match_at_plain.
    destruct (AnalysisResults.occurs_here up term (c :: s)) eqn:E.
    + pose proof (occurs_here_length _ _ E) as Hlen.
      cbn [rest caps]. rewrite length_skipn.
      replace (List.length (c :: s) - (List.length (c :: s) - List.length term))
        with (List.length term) by lia.
      rewrite substitute_mark.
      destruct (List.length term) as [|n] eqn:En.
      * destruct Hne. now apply length_zero_iff_nil.
      * cbn [option_map Nat.pred]. rewrite IH. reflexivity.
    + rewrite IH. reflexivity.
Qed.

(** What the search does for a text without syntax characters: each of
    its occurrences, whatever the letter case, is wrapped in the mark. *)
Lemma highlightSearchTerm_plain (transcript term : jsstring) :
  term <> [] ->
  plain term = true ->
  AnalysisResults.highlightSearchTerm up (VStr transcript) term
  = AnalysisResults.Rendered
      (VStr (AnalysisResults.mark_occurrences up term transcript 0)).
Proof.
  intros Hne Hp. unfold AnalysisResults.highlightSearchTerm.
  rewrite (pattern_plain _ Hp Hne), (replace_plain _ Hne).
  destruct term; [easy | reflexivity].
Qed.

End PlainTerm.

(* ===================================================================== *)
(** * The client wrapper and the accessors *)
(* ===================================================================== *)

Section ApiFacts.

Import Api.

Variable env : value.
Variable NumberToString : Z -> jsstring.
Variable net : network.

(** What a call through the instance comes to, by how it settles. *)
Lemma api_call_settled (meth : method) (url : jsstring) (body : value)
    (log : list request) :
  api_call env NumberToString net meth url body log =
  (match net log (api_request env meth url body) with
   | Fulfilled r => Ok r
   | Rejected e => Throw (on_rejected NumberToString e)
   end,
   log ++ [api_request env meth url body]).
Proof.
  unfold api_call, try_catch, send, throw.
  destruct (net log _); reflexivity.
Qed.

Lemma analyzeVideoAdvanced_settled (url lang hint : value)
    (log : list request) :
  let body :=
    VObj [(js "url", url);
          (js "output_language", default (VStr (js "en")) lang);
          (js "auto_detect_video_language", VBool true);
          (js "video_language_hint", default VNull hint)] in
  let req := api_request env POST (js "/api/advanced-summary") body in
  analyzeVideoAdvanced env NumberToString net url lang hint log =
  (match net log req with
   | Fulfilled r => Ok (data r)
   | Rejected e => Throw (on_rejected NumberToString e)
   end, log ++ [req]).
Proof.
  cbv zeta. unfold analyzeVideoAdvanced, try_catch, bind, api_post, ret, throw.
  rewrite api_call_settled. destruct (net log _); reflexivity.
Qed.

Lemma queryTranscriptAdvanced_settled (transcript query lang qlang : value)
    (log : list request) :
  let body :=
    VObj [(js "transcript", transcript);
          (js "query", query);
          (js "output_language", default (VStr (js "en")) lang);
          (js "query_language", default VNull qlang)] in
  let req := api_request env POST (js "/api/advanced-query") body in
  queryTranscriptAdvanced env NumberToString net transcript query lang qlang
    log =
  (match net log req with
   | Fulfilled r => Ok (data r)
   | Rejected e => Throw (on_rejected NumberToString e)
   end, log ++ [req]).
Proof.
  cbv zeta.
  unfold queryTranscriptAdvanced, try_catch, bind, api_post, ret, throw.
  rewrite api_call_settled. destruct (net log _); reflexivity.
Qed.

(** The message of a normalized error is never empty. *)
Lemma on_rejected_message (e : axios_error) :
  truthy (VStr (err_message (on_rejected NumberToString e))) = true.
Proof.
  unfold on_rejected.
  destruct (err_response e) as [resp|].
  - destruct (template NumberToString (server_message e resp)); reflexivity.
  - destruct (err_request e); reflexivity.
Qed.

Lemma default_default (d v : value) : default d (default d v) = default d v.
Proof. destruct v; try reflexivity. now destruct d. Qed.

End ApiFacts.


(** C2.  When the catalog fetch fails, whether the network or the server
    is at fault, [getSupportedLanguages] returns instead of raising, and
    what it returns is the built-in list: ten languages with the codes
    en, es, fr, de, it, ja, ko, zh, hi, ar, and [total_languages] 10. *)
Theorem getSupportedLanguages_falls_back (env : value)
    (NumberToString : Z -> jsstring) (net : network) (log : list request)
    (e : axios_error) :
  net log (Api.api_request env GET (js "/api/languages") VUndefined)
    = Rejected e ->
  exists langs,
    Api.getSupportedLanguages env NumberToString net log
    = (Ok (VObj [(js "languages", VArr langs);
                 (js "total_languages", VNum 10)]),
       log ++ [Api.api_request env GET (js "/api/languages") VUndefined])
    /\ List.length langs = 10
    /\ map (fun lang => get lang (js "code")) langs
       = map VStr [js "en"; js "es"; js "fr"; js "de"; js "it"; js "ja";
                   js "ko"; js "zh"; js "hi"; js "ar"].
Proof.
  intros H. exists Api.fallback_languages.
  unfold Api.getSupportedLanguages, try_catch, bind, Api.api_get, ret.
  rewrite api_call_settled, H. repeat split.
Qed.

Lemma getSupportedLanguages_falls_back_offline :
  Page.offline []
    (Api.api_request VUndefined GET (js "/api/languages") VUndefined)
  = Rejected Page.unreachable
  /\ exists langs,
       Api.getSupportedLanguages VUndefined Page.plain Page.offline []
       = (Ok (VObj [(js "languages", VArr langs);
                    (js "total_languages", VNum 10)]),
          [] ++ [Api.api_request VUndefined GET (js "/api/languages")
                   VUndefined])
       /\ List.length langs = 10
       /\ map (fun lang => get lang (js "code")) langs
          = map VStr [js "en"; js "es"; js "fr"; js "de"; js "it"; js "ja";
                      js "ko"; js "zh"; js "hi"; js "ar"].
Proof.
  split; [reflexivity|].
  apply (getSupportedLanguages_falls_back VUndefined Page.plain Page.offline
           [] Page.unreachable).
  reflexivity.
Defined.




(** C10.  [checkApiHealth] never raises.  It answers [true] exactly when
    the GET of [/health] succeeds with status 200, and [false] whenever
    the call fails, whatever the failure. *)
Theorem checkApiHealth_total (env : value) (NumberToString : Z -> jsstring)
    (net : network) (log : list request) :
  Api.checkApiHealth env NumberToString net log
  = (Ok match net log (Api.api_request env GET (js "/health") VUndefined) with
        | Fulfilled r => (status r =? 200)%N
        | Rejected _ => false
        end,
     log ++ [Api.api_request env GET (js "/health") VUndefined]).
Proof.
  unfold Api.checkApiHealth, try_catch, bind, Api.api_get, ret.
  rewrite api_call_settled. destruct (net log _); reflexivity.
Qed.

(** C9.  The backward-compatible entry points are the advanced operations
    with the last parameter at its default: [analyzeVideo(url, language)]
    is [analyzeVideoAdvanced(url, language, null)], and
    [queryTranscript(transcript, query, language)] is
    [queryTranscriptAdvanced(transcript, query, language, null)]. *)
Theorem compatibility_wrappers (env : value) (NumberToString : Z -> jsstring)
    (net : network) :
  (forall url language : value,
      Api.analyzeVideo env NumberToString net url language
      = Api.analyzeVideoAdvanced env NumberToString net url language VNull)
  /\ (forall transcript query language : value,
         Api.queryTranscript env NumberToString net transcript query language
         = Api.queryTranscriptAdvanced env NumberToString net
             transcript query language VNull).
Proof.
  split; intros.
  - unfold Api.analyzeVideo, Api.analyzeVideoAdvanced.
    cbv zeta. rewrite default_default. reflexivity.
  - unfold Api.queryTranscript, Api.queryTranscriptAdvanced.
    cbv zeta. rewrite default_default. reflexivity.
Qed.

(* ===================================================================== *)
(** * The page-level component *)
(* ===================================================================== *)

(** The page after [handleAnalyzeVideo] has run, by how the call
    settled. *)
Lemma handleAnalyzeVideo_settled (env : value)
    (NumberToString : Z -> jsstring) (net : network)
    (url outputLanguage videoLanguageHint : value) (st : App.state)
    (log : list request) :
  let lang := default (VStr (js "en")) outputLanguage in
  let req :=
    Api.api_request env POST (js "/api/advanced-summary")
      (VObj [(js "url", url);
             (js "output_language", lang);
             (js "auto_detect_video_language", VBool true);
             (js "video_language_hint", default VNull videoLanguageHint)]) in
  App.handleAnalyzeVideo env NumberToString net
    url outputLanguage videoLanguageHint st log
  = (match net log req with
     | Fulfilled r =>
         {| App.analysisData := data r; App.loading := false;
            App.error := VNull; App.selectedLanguage := lang |}
     | Rejected e =>
         {| App.analysisData := VNull; App.loading := false;
            App.error :=
              VStr (Api.err_message (Api.on_rejected NumberToString e));
            App.selectedLanguage := lang |}
     end, log ++ [req]).
Proof.
  cbv zeta. unfold App.handleAnalyzeVideo.
  rewrite analyzeVideoAdvanced_settled. rewrite !default_default.
  destruct (net log _) as [r|e]; cbn [App.analysisData App.error
    App.selectedLanguage]; [reflexivity|].
  unfold or_else. rewrite on_rejected_message. reflexivity.
Qed.

(** C6.  After an analysis call that fails the page holds no result: the
    previous one is gone, not left on display, and the error shown is the
    message of the error the call raised.  After one that succeeds the
    page holds the new result.  Either way nothing of the page's earlier
    state survives the submission. *)
Theorem handleAnalyzeVideo_replaces_result (env : value)
    (NumberToString : Z -> jsstring) (net : network)
    (url outputLanguage videoLanguageHint : value) (st : App.state)
    (log : list request) :
  let after :=
    fst (App.handleAnalyzeVideo env NumberToString net
           url outputLanguage videoLanguageHint st log) in
  match net log
          (Api.api_request env POST (js "/api/advanced-summary")
             (VObj [(js "url", url);
                    (js "output_language",
                     default (VStr (js "en")) outputLanguage);
                    (js "auto_detect_video_language", VBool true);
                    (js "video_language_hint",
                     default VNull videoLanguageHint)])) with
  | Rejected e =>
      App.analysisData after = VNull
      /\ App.error after
         = VStr (Api.err_message (Api.on_rejected NumberToString e))
  | Fulfilled r =>
      App.analysisData after = data r /\ App.error after = VNull
  end
  /\ forall st' : App.state,
       App.handleAnalyzeVideo env NumberToString net
         url outputLanguage videoLanguageHint st' log
       = App.handleAnalyzeVideo env NumberToString net
           url outputLanguage videoLanguageHint st log.
Proof.
  cbv zeta. split.
  - rewrite handleAnalyzeVideo_settled.
    destruct (net log _); split; reflexivity.
  - intros st'. now rewrite !handleAnalyzeVideo_settled.
Qed.

(** C5.  Without a transcript no question reaches the server.  In the new
    front-end [handleQuery] answers [null] at once and the chat form
    issues nothing; in the older one [handleQuery] returns before its
    POST.  This holds for every question, and for a transcript that is
    missing (no analysis yet, or none in the result) as for an empty
    one. *)
Theorem query_needs_transcript (env : value) (NumberToString : Z -> jsstring)
    (net : network) (app : App.state) (viewer : AnalysisResults.state)
    (legacy : LegacyApp.state) (query : value) (log : list request) :
  truthy (get (App.analysisData app) (js "transcript")) = false ->
  truthy (LegacyApp.transcript legacy) = false ->
  App.handleQuery env NumberToString net app query log = (Ok VNull, log)
  /\ snd (Page.ask env NumberToString net viewer app log) = log
  /\ LegacyApp.handleQuery net legacy log = (legacy, log).
Proof.
  intros Hnew Hold. repeat split.
  - unfold App.handleQuery. now rewrite Hnew.
  - unfold Page.ask, AnalysisResults.handleQuery, App.handleQuery.
    rewrite Hnew. cbn [negb]. unfold ret.
    destruct (truthy (App.analysisData app)); [|reflexivity].
    destruct (trim (AnalysisResults.query viewer)); reflexivity.
  - unfold LegacyApp.handleQuery. rewrite Hold.
    cbn [negb]. now rewrite orb_true_r.
Qed.

Lemma query_needs_transcript_initially :
  truthy (get (App.analysisData App.initial) (js "transcript")) = false
  /\ truthy (LegacyApp.transcript LegacyApp.initial) = false
  /\ App.handleQuery VUndefined Page.plain (Page.serving VNull) App.initial
       (VStr (js "Summarize the conclusion")) []
     = (Ok VNull, [])
  /\ snd (Page.ask VUndefined Page.plain (Page.serving VNull)
            AnalysisResults.initial App.initial []) = []
  /\ LegacyApp.handleQuery (Page.serving VNull) LegacyApp.initial []
     = (LegacyApp.initial, []).
Proof.
  split; [reflexivity|]. split; [reflexivity|].
  apply (query_needs_transcript VUndefined Page.plain (Page.serving VNull)
           App.initial AnalysisResults.initial LegacyApp.initial
           (VStr (js "Summarize the conclusion")) []); reflexivity.
Defined.

(* ===================================================================== *)
(** * The analyzer form *)
(* ===================================================================== *)

(** C4.  A valid submission issues exactly one request: a POST to
    [/api/advanced-summary] whose body holds the URL as typed, the
    selected output language, the auto-detect flag set, and the language
    hint, which is [null] when none was chosen. *)
Theorem valid_submission_posts_once (env : value)
    (NumberToString : Z -> jsstring) (net : network)
    (form : VideoAnalyzer.state) (app : App.state) (log : list request) :
  VideoAnalyzer.validateYouTubeUrl (VideoAnalyzer.url form) = true ->
  snd (snd (Page.submit env NumberToString net form app log))
  = log ++
    [ Api.api_request env POST (js "/api/advanced-summary")
        (VObj [(js "url", VStr (VideoAnalyzer.url form));
               (js "output_language",
                VStr (VideoAnalyzer.outputLanguage form));
               (js "auto_detect_video_language", VBool true);
               (js "video_language_hint",
                match VideoAnalyzer.videoLanguageHint form with
                | [] => VNull
                | hint => VStr hint
                end)]) ].
Proof.
  intros Hvalid. unfold Page.submit, VideoAnalyzer.handleSubmit.
  pose proof (valid_url_not_blank _ Hvalid) as Hblank.
  destruct (trim (VideoAnalyzer.url form)) as [|c t]; [easy|].
  rewrite Hvalid. cbn [negb snd fst].
  rewrite handleAnalyzeVideo_settled. cbn [snd].
  destruct (VideoAnalyzer.videoLanguageHint form); reflexivity.
Qed.

Lemma valid_submission_posts_once_scenario :
  VideoAnalyzer.validateYouTubeUrl (VideoAnalyzer.url Page.scenario_form)
  = true
  /\ snd (snd (Page.submit VUndefined Page.plain (Page.serving VNull)
                 Page.scenario_form App.initial []))
     = [] ++
       [ Api.api_request VUndefined POST (js "/api/advanced-summary")
           (VObj [(js "url",
                   VStr (js "https://www.youtube.com/watch?v=dQw4w9WgXcQ"));
                  (js "output_language", VStr (js "ko"));
                  (js "auto_detect_video_language", VBool true);
                  (js "video_language_hint", VNull)]) ].
Proof.
  split; [vm_compute; reflexivity|].
  apply (valid_submission_posts_once VUndefined Page.plain
           (Page.serving VNull) Page.scenario_form App.initial []).
  vm_compute. reflexivity.
Defined.

(** C1.  As the code has it: in the analyzer form a text that matches
    none of the four patterns is turned away on the spot: the inline
    error is raised, [onAnalyze] is not called, and the page, its request
    log included, is as before.  The older front-end checks no pattern:
    it turns away the empty text only and posts any other to
    [/api/summary]. *)
Theorem unmatched_url_is_rejected (env : value)
    (NumberToString : Z -> jsstring) (net : network) (P : Type)
    (onAnalyze : value -> value -> value -> P -> P) (page : P)
    (form : VideoAnalyzer.state) (app : App.state)
    (legacy : LegacyApp.state) (log : list request) :
  VideoAnalyzer.validateYouTubeUrl (VideoAnalyzer.url form) = false ->
  VideoAnalyzer.handleSubmit onAnalyze form page
  = (VideoAnalyzer.setIsValidUrl false form, page)
  /\ Page.submit env NumberToString net form app log
     = (VideoAnalyzer.setIsValidUrl false form, (app, log))
  /\ snd (LegacyApp.handleSubmit net legacy log)
     = match LegacyApp.inputUrl legacy with
       | [] => log
       | typed =>
           log ++
           [ LegacyApp.bare (js "http://localhost:8000/api/summary")
               (VObj [(js "url", VStr typed);
                      (js "agent",
                       get LegacyApp.agents
                           (LegacyApp.activeAgent legacy))]) ]
       end.
Proof.
  intros Hbad.
  assert (Hform : forall (Q : Type) (f : value -> value -> value -> Q -> Q)
                         (q : Q),
             VideoAnalyzer.handleSubmit f form q
             = (VideoAnalyzer.setIsValidUrl false form, q)).
  { intros Q f q. unfold VideoAnalyzer.handleSubmit. rewrite Hbad.
    destruct (trim (VideoAnalyzer.url form)); reflexivity. }
  split; [apply Hform|]. split; [apply Hform|].
  unfold LegacyApp.handleSubmit, send.
  destruct (LegacyApp.inputUrl legacy) as [|c typed]; [reflexivity|].
  destruct (net log _) as [r|e]; cbn [snd]; [|reflexivity].
  destruct (prop (data r) (js "summary")), (prop (data r) (js "transcript"));
    reflexivity.
Qed.

Lemma unmatched_url_is_rejected_stray :
  VideoAnalyzer.validateYouTubeUrl (VideoAnalyzer.url Page.stray_form)
  = false
  /\ VideoAnalyzer.handleSubmit (fun _ _ _ (n : nat) => S n)
       Page.stray_form 0
     = (VideoAnalyzer.setIsValidUrl false Page.stray_form, 0)
  /\ Page.submit VUndefined Page.plain Page.offline Page.stray_form
       App.initial []
     = (VideoAnalyzer.setIsValidUrl false Page.stray_form, (App.initial, []))
  /\ snd (LegacyApp.handleSubmit Page.offline LegacyApp.initial [])
     = [].
Proof.
  split; [vm_compute; reflexivity|].
  apply (unmatched_url_is_rejected VUndefined Page.plain Page.offline nat
           (fun _ _ _ n => S n) 0 Page.stray_form App.initial
           LegacyApp.initial []).
  vm_compute. reflexivity.
Defined.

(** Counterexample to C1 as stated, in the older front-end: the text
    [not-a-url] matches no pattern, and submitting it there posts it. *)
Lemma legacy_posts_unmatched_url :
  VideoAnalyzer.validateYouTubeUrl (LegacyApp.inputUrl Page.stray_legacy)
  = false
  /\ snd (LegacyApp.handleSubmit Page.offline Page.stray_legacy [])
     = [ LegacyApp.bare (js "http://localhost:8000/api/summary")
           (VObj [(js "url", VStr (js "not-a-url"));
                  (js "agent", VStr (js "gemini"))]) ].
Proof. split; vm_compute; reflexivity. Qed.

(* ===================================================================== *)
(** * The transcript search *)
(* ===================================================================== *)

(** C7.  The code falls short of the claim: the search box is read as a
    pattern, not as a text.  Searching [3.5] marks [365] as well, the dot
    standing for any unit, and searching an opening parenthesis raises a
    SyntaxError whatever the transcript is. *)
Theorem highlightSearchTerm_reads_pattern (up : code_unit -> code_unit) :
  AnalysisResults.highlightSearchTerm up
    (VStr (js "Is it 3.5 or 365?")) (js "3.5")
  = AnalysisResults.Rendered
      (VStr (js "Is it " ++ AnalysisResults.marked (js "3.5") ++ js " or "
             ++ AnalysisResults.marked (js "365") ++ js "?"))
  /\ forall text : value,
       AnalysisResults.highlightSearchTerm up text (js "(")
       = AnalysisResults.Raised SyntaxError.
Proof.
  split; [vm_compute; reflexivity | intros text; reflexivity].
Qed.

(* ===================================================================== *)
(** * The language selector *)
(* ===================================================================== *)

Lemma str_eqb_eq (a b : jsstring) : str_eqb a b = true <-> a = b.
Proof.
  revert b. induction a as [|x a IH]; intros [|y b]; cbn; try easy.
  rewrite andb_true_iff, N.eqb_eq, IH. split.
  - now intros [-> ->].
  - intros H. injection H as -> ->. easy.
Qed.

Lemma str_eqb_refl (a : jsstring) : str_eqb a a = true.
Proof. now apply str_eqb_eq. Qed.

Lemma strict_eq_str_eq (v : value) (s : jsstring) :
  strict_eq_str v s = true <-> v = VStr s.
Proof.
  destruct v; cbn; try (split; [discriminate | intros H; discriminate H]).
  rewrite str_eqb_eq. split; [now intros -> | intros H; now injection H].
Qed.

Section SelectorFacts.

Import VideoAnalyzer.

Variable NumberToString : Z -> jsstring.

Lemma prop_get (v : value) (k : jsstring) (x : value) :
  prop v k = Ok x -> x = get v k.
Proof. destruct v; cbn; congruence. Qed.

Lemma prop_nullish (v : value) (k : jsstring) :
  prop v k = if nullish v then Throw TypeError else Ok (get v k).
Proof. now destruct v. Qed.


Lemma find_code_spec (langs : list value) (code : jsstring) (v : value) :
  find_code langs code = Ok v ->
  (v = VUndefined
   /\ Forall (fun l => get l (js "code") <> VStr code) langs)
  \/ exists before after,
       langs = before ++ v :: after
       /\ get v (js "code") = VStr code
       /\ Forall (fun l => get l (js "code") <> VStr code) before.
Proof.
  induction langs as [|lang langs IH]; cbn [find_code].
  - intros H. left. split; [congruence | constructor].
  - rewrite prop_nullish. destruct (nullish lang); [discriminate|].
    destruct (strict_eq_str (get lang (js "code")) code) eqn:E.
    + intros H. injection H as <-. right. exists [], langs.
      split; [reflexivity|]. split; [now apply strict_eq_str_eq | constructor].
    + assert (Hne : get lang (js "code") <> VStr code).
      { intros Heq. apply strict_eq_str_eq in Heq. congruence. }
      intros H. destruct (IH H) as [[-> Hall] | (b & a & -> & Hc & Hall)].
      * left. split; [reflexivity | now constructor].
      * right. exists (lang :: b), a. repeat split; [exact Hc|].
        now constructor.
Qed.

Lemma find_code_total (langs : list value) (code : jsstring) :
  forallb (fun l => negb (nullish l)) langs = true ->
  exists v, find_code langs code = Ok v.
Proof.
  induction langs as [|lang langs IH]; cbn [find_code forallb].
  - eauto.
  - rewrite andb_true_iff, negb_true_iff. intros [Hn Hall].
    rewrite prop_nullish, Hn.
    destruct (strict_eq_str _ _); eauto.
Qed.


Lemma map_result_total {A B : Type} (f : A -> result runtime_error B)
    (l : list A) :
  (forall a, In a l -> exists b, f a = Ok b) ->
  exists bs, map_result f l = Ok bs.
Proof.
  induction l as [|a l IH]; intros H; cbn [map_result]; [eauto|].
  destruct (H a (or_introl eq_refl)) as [b ->].
  destruct IH as [bs ->]; [intros; apply H; now right | eauto].
Qed.



Lemma filter_others_total (langs : list value) :
  forallb (fun l => negb (nullish l)) langs = true ->
  exists os, filter_others langs = Ok os.
Proof.
  induction langs as [|lang langs IH]; cbn [filter_others forallb]; [eauto|].
  rewrite andb_true_iff, negb_true_iff. intros [Hn Hall].
  rewrite prop_nullish, Hn. destruct (IH Hall) as [os ->].
  destruct (negb _); eauto.
Qed.

Lemma filter_others_well_formed (langs os : list value) :
  filter_others langs = Ok os ->
  forallb (fun l => negb (nullish l)) langs = true.
Proof.
  revert os. induction langs as [|lang langs IH]; intros os;
    cbn [filter_others forallb]; [reflexivity|].
  rewrite prop_nullish. destruct (nullish lang); [discriminate|].
  destruct (filter_others langs) as [rest|]; [|discriminate].
  intros _. cbn. now apply (IH rest).
Qed.



(** The two lists of the component's body are computed exactly for a
    list in the state that is an array without [null] or [undefined]
    entries. *)
Lemma language_lists_ok (st : state) :
  (exists ps os, popularLangs st = Ok ps /\ otherLangs st = Ok os)
  <-> exists langs,
        supportedLanguages st = VArr langs
        /\ forallb (fun l => negb (nullish l)) langs = true.
Proof.
  unfold popularLangs, otherLangs, getLanguageByCode. split.
  - intros (ps & os & Hp & Ho).
    destruct (supportedLanguages st) as [| | | | |langs|]; try discriminate.
    exists langs. split; [reflexivity|].
    now apply (filter_others_well_formed _ _ Ho).
  - intros (langs & E & Hwf).
    destruct (supportedLanguages st) as [| | | | |langs'|]; try discriminate.
    injection E as ->.
    destruct (map_result_total (find_code langs) popularLanguages)
      as [found0 Ef0]; [intros; now apply find_code_total|].
    destruct (filter_others_total langs Hwf) as [os0 Eo0].
    destruct (map_result (find_code langs) popularLanguages)
      as [found|] eqn:Ef; [|discriminate].
    eauto.
Qed.

(** Whatever stops the body from computing them is a TypeError. *)
Lemma language_lists_error (st : state) (e : runtime_error) :
  popularLangs st = Throw e \/ otherLangs st = Throw e -> e = TypeError.
Proof.
  unfold popularLangs, otherLangs, getLanguageByCode.
  assert (Hf : forall langs code e',
             find_code langs code = Throw e' -> e' = TypeError).
  { induction langs as [|l langs IH]; intros code e'; cbn [find_code];
      [discriminate|].
    rewrite prop_nullish. destruct (nullish l); [congruence|].
    destruct (strict_eq_str _ _); [discriminate | apply IH]. }
  assert (Hm : forall (f : jsstring -> result runtime_error value) l e',
             (forall a e0, f a = Throw e0 -> e0 = TypeError) ->
             map_result f l = Throw e' -> e' = TypeError).
  { intros f l e' Hfa. induction l as [|a l IH]; cbn [map_result];
      [discriminate|].
    destruct (f a) eqn:Ea; [|intros H; injection H as <-; eauto].
    destruct (map_result f l); [discriminate|].
    intros H. injection H as <-. now apply IH. }
  assert (Ho : forall langs e', filter_others langs = Throw e' ->
                                e' = TypeError).
  { induction langs as [|l langs IH]; intros e'; cbn [filter_others];
      [discriminate|].
    rewrite prop_nullish. destruct (nullish l); [congruence|].
    destruct (filter_others langs); [destruct (negb _); discriminate|].
    intros H. injection H as <-. now apply IH. }
  destruct (supportedLanguages st) as [| | | | |langs|];
    try (cbn; intros [H | H]; congruence).
  intros [H | H].
  - destruct (map_result (find_code langs) popularLanguages) as [found|e1]
      eqn:Ef; [discriminate|].
    injection H as <-.
    exact (Hm (find_code langs) popularLanguages e1
              (fun a e0 => Hf langs a e0) Ef).
  - exact (Ho langs e H).
Qed.

(** Without such a list the selector raises a TypeError. *)
Lemma output_language_select_malformed (st : state) :
  (forall langs, supportedLanguages st = VArr langs ->
                 forallb (fun l => negb (nullish l)) langs <> true) ->
  output_language_select NumberToString st = Throw TypeError.
Proof.
  intros H. unfold output_language_select.
  destruct (popularLangs st) as [ps|e1] eqn:Ep.
  - destruct (otherLangs st) as [os|e2] eqn:Eo.
    + destruct (proj1 (language_lists_ok st)) as (langs & Hs & Hwf);
        [now exists ps, os|].
      now destruct (H langs Hs).
    + now rewrite (language_lists_error st e2 (or_intror Eo)).
  - rewrite (language_lists_error st e1 (or_introl Ep)).
    now destruct (otherLangs st).
Qed.







End SelectorFacts.




(* ===================================================================== *)
(** * More about the analyzer form *)
(* ===================================================================== *)

Lemma trim_start_blank (s : jsstring) :
  forallb is_space s = true -> trim_start s = [].
Proof.
  induction s as [|c s IH]; [reflexivity|]. cbn [forallb trim_start].
  rewrite andb_true_iff. intros [-> H]. now apply IH.
Qed.

Lemma trim_blank (s : jsstring) : forallb is_space s = true -> trim s = [].
Proof. intros H. unfold trim. now rewrite (trim_start_blank s H). Qed.

(** X1.  [validateYouTubeUrl] accepts a text exactly when, somewhere in
    it, one of [youtube.com/watch?v=], [youtu.be/], [youtube.com/embed/],
    [youtube.com/v/] is followed by eleven units out of digits, letters,
    underscore and dash.  Nothing is asked of what stands before or
    after. *)
Theorem validateYouTubeUrl_accepts_four_shapes (u : jsstring) :
  VideoAnalyzer.validateYouTubeUrl u = true <->
  exists prefix before id after,
    In prefix [js "youtube.com/watch?v="; js "youtu.be/";
               js "youtube.com/embed/"; js "youtube.com/v/"]
    /\ u = before ++ prefix ++ id ++ after
    /\ List.length id = 11
    /\ forallb VideoAnalyzer.id_char id = true.
Proof. apply validateYouTubeUrl_shapes. Qed.

(** X2.  The check is not anchored: a text that passes still passes with
    anything written before and after it. *)
Theorem validateYouTubeUrl_ignores_surroundings (before u after : jsstring) :
  VideoAnalyzer.validateYouTubeUrl u = true ->
  VideoAnalyzer.validateYouTubeUrl (before ++ u ++ after) = true.
Proof.
  rewrite !validateYouTubeUrl_shapes.
  intros (p & b & id & a & Hp & -> & Hid).
  exists p, (before ++ b), id, (a ++ after). split; [exact Hp|].
  split; [|exact Hid]. now rewrite <- !app_assoc.
Qed.

Lemma validateYouTubeUrl_ignores_surroundings_sample :
  VideoAnalyzer.validateYouTubeUrl (js "youtu.be/dQw4w9WgXcQ") = true
  /\ VideoAnalyzer.validateYouTubeUrl
       (js "see " ++ js "youtu.be/dQw4w9WgXcQ" ++ js " now") = true.
Proof.
  split; [vm_compute; reflexivity|].
  apply (validateYouTubeUrl_ignores_surroundings (js "see ")
           (js "youtu.be/dQw4w9WgXcQ") (js " now")).
  vm_compute. reflexivity.
Defined.

(** X3.  No text of fewer than twenty units passes: the shortest shape
    is [youtu.be/] and its eleven units. *)
Theorem validateYouTubeUrl_needs_twenty_units (u : jsstring) :
  List.length u < 20 -> VideoAnalyzer.validateYouTubeUrl u = false.
Proof.
  intros Hlen.
  destruct (VideoAnalyzer.validateYouTubeUrl u) eqn:E; [|reflexivity].
  apply validateYouTubeUrl_shapes in E.
  destruct E as (p & b & id & a & Hp & -> & Hid & _).
  rewrite !length_app, Hid in Hlen.
  cbn in Hp. destruct Hp as [<- | [<- | [<- | [<- | []]]]];
    cbn in Hlen; lia.
Qed.

Lemma validateYouTubeUrl_needs_twenty_units_sample :
  List.length (js "youtu.be/dQw4w9WgXc") < 20
  /\ VideoAnalyzer.validateYouTubeUrl (js "youtu.be/dQw4w9WgXc") = false.
Proof.
  split; [vm_compute; lia|].
  apply (validateYouTubeUrl_needs_twenty_units (js "youtu.be/dQw4w9WgXc")).
  vm_compute. lia.
Defined.

(** X4.  After every keystroke the submit button is enabled exactly for
    a text that passes the check (nothing being loaded), and the inline
    error shows exactly for a text that is not empty and fails it. *)
Theorem submit_button_follows_validation (loading : bool) (u : jsstring)
    (st : VideoAnalyzer.state) :
  VideoAnalyzer.submit_disabled loading (VideoAnalyzer.handleUrlChange u st)
  = loading || negb (VideoAnalyzer.validateYouTubeUrl u)
    || VideoAnalyzer.loadingLanguages st
  /\ VideoAnalyzer.isValidUrl (VideoAnalyzer.handleUrlChange u st)
     = match u with
       | [] => true
       | _ => VideoAnalyzer.validateYouTubeUrl u
       end.
Proof.
  unfold VideoAnalyzer.submit_disabled, VideoAnalyzer.handleUrlChange.
  destruct (VideoAnalyzer.validateYouTubeUrl u) eqn:Ev.
  - pose proof (valid_url_not_blank u Ev) as Hb.
    rewrite andb_false_r.
    cbn [VideoAnalyzer.set_url VideoAnalyzer.url VideoAnalyzer.isValidUrl
         VideoAnalyzer.loadingLanguages truthy negb].
    destruct (trim u); [easy|].
    split; [now rewrite !orb_false_r | now destruct u].
  - destruct u as [|c u];
      cbn [VideoAnalyzer.set_url VideoAnalyzer.url VideoAnalyzer.isValidUrl
           VideoAnalyzer.loadingLanguages truthy negb andb].
    + split; [now rewrite !orb_true_r | reflexivity].
    + split; [|reflexivity]. now rewrite !orb_true_r.
Qed.

(** X5.  Typing a text and submitting the form calls [onAnalyze] exactly
    when the text passes the check, with the text as typed, the selected
    output language, and the hint or [null]; otherwise the page is left
    alone and the inline error shows. *)
Theorem typing_then_submitting (P : Type)
    (onAnalyze : value -> value -> value -> P -> P) (page : P)
    (u : jsstring) (st : VideoAnalyzer.state) :
  VideoAnalyzer.handleSubmit onAnalyze (VideoAnalyzer.handleUrlChange u st)
    page
  = if VideoAnalyzer.validateYouTubeUrl u
    then (VideoAnalyzer.set_url u true st,
          onAnalyze (VStr u) (VStr (VideoAnalyzer.outputLanguage st))
            (match VideoAnalyzer.videoLanguageHint st with
             | [] => VNull
             | hint => VStr hint
             end) page)
    else (VideoAnalyzer.set_url u false st, page).
Proof.
  unfold VideoAnalyzer.handleSubmit, VideoAnalyzer.handleUrlChange.
  destruct (VideoAnalyzer.validateYouTubeUrl u) eqn:Ev.
  - pose proof (valid_url_not_blank u Ev) as Hb.
    rewrite andb_false_r.
    cbn [VideoAnalyzer.set_url VideoAnalyzer.url VideoAnalyzer.isValidUrl
         VideoAnalyzer.outputLanguage VideoAnalyzer.videoLanguageHint
         VideoAnalyzer.setIsValidUrl].
    destruct (trim u); [easy|]. rewrite Ev. cbn [negb].
    unfold VideoAnalyzer.set_url; cbn [VideoAnalyzer.url
      VideoAnalyzer.outputLanguage VideoAnalyzer.videoLanguageHint
      VideoAnalyzer.supportedLanguages VideoAnalyzer.loadingLanguages
      VideoAnalyzer.showAdvancedOptions].
    now destruct (VideoAnalyzer.videoLanguageHint st).
  - destruct u as [|c u]; [reflexivity|].
    cbn [truthy negb andb VideoAnalyzer.set_url VideoAnalyzer.url
         VideoAnalyzer.isValidUrl VideoAnalyzer.setIsValidUrl].
    rewrite Ev. cbn [negb]. destruct (trim (c :: u)); reflexivity.
Qed.

(** X6.  [getLanguageByCode] answers the first entry of the list whose
    code is the one asked for, and [undefined] when no entry has it. *)
Theorem getLanguageByCode_first_match (st : VideoAnalyzer.state)
    (code : jsstring) (v : value) :
  VideoAnalyzer.getLanguageByCode st code = Ok v ->
  exists langs,
    VideoAnalyzer.supportedLanguages st = VArr langs
    /\ ((v = VUndefined
         /\ Forall (fun l => get l (js "code") <> VStr code) langs)
        \/ exists before after,
             langs = before ++ v :: after
             /\ get v (js "code") = VStr code
             /\ Forall (fun l => get l (js "code") <> VStr code) before).
Proof.
  unfold VideoAnalyzer.getLanguageByCode.
  destruct (VideoAnalyzer.supportedLanguages st) as [| | | | |langs|];
    try discriminate.
  intros H. exists langs. split; [reflexivity|]. now apply find_code_spec.
Qed.

Lemma getLanguageByCode_first_match_korean :
  VideoAnalyzer.getLanguageByCode Page.scenario_form (js "ko")
  = Ok (nth 6 Api.fallback_languages VNull)
  /\ exists langs,
       VideoAnalyzer.supportedLanguages Page.scenario_form = VArr langs
       /\ ((nth 6 Api.fallback_languages VNull = VUndefined
            /\ Forall (fun l => get l (js "code") <> VStr (js "ko")) langs)
           \/ exists before after,
                langs = before ++ nth 6 Api.fallback_languages VNull :: after
                /\ get (nth 6 Api.fallback_languages VNull) (js "code")
                   = VStr (js "ko")
                /\ Forall (fun l => get l (js "code") <> VStr (js "ko"))
                          before).
Proof.
  split; [vm_compute; reflexivity|].
  apply (getLanguageByCode_first_match Page.scenario_form (js "ko")
           (nth 6 Api.fallback_languages VNull)).
  vm_compute. reflexivity.
Defined.




(** X9.  [loadLanguages] stores whatever the answer carries under
    [languages], unchecked.  An answer with status 2xx whose body is an
    object without a well-formed array there makes the selector raise a
    TypeError from then on. *)
Theorem malformed_catalog_breaks_selector (env : value)
    (NumberToString : Z -> jsstring) (net : network)
    (st : VideoAnalyzer.state) (log : list request) (r : response) :
  net log (Api.api_request env GET (js "/api/languages") VUndefined)
    = Fulfilled r ->
  nullish (data r) = false ->
  (forall langs, get (data r) (js "languages") = VArr langs ->
                 forallb (fun l => negb (nullish l)) langs = false) ->
  VideoAnalyzer.output_language_select NumberToString
    (fst (VideoAnalyzer.loadLanguages env NumberToString net st log))
  = Throw TypeError.
Proof.
  intros Hnet Hdata Hbad.
  apply output_language_select_malformed.
  unfold VideoAnalyzer.loadLanguages, Api.getSupportedLanguages, try_catch,
    bind, Api.api_get, ret.
  rewrite api_call_settled, Hnet, prop_nullish, Hdata.
  cbn [fst VideoAnalyzer.loaded VideoAnalyzer.supportedLanguages].
  intros langs Hl. rewrite (Hbad langs Hl). discriminate.
Qed.

Lemma malformed_catalog_breaks_selector_sample :
  let body := VObj [(js "total_languages", VNum 0)] in
  Page.serving body []
    (Api.api_request VUndefined GET (js "/api/languages") VUndefined)
  = Fulfilled {| status := 200; data := body |}
  /\ nullish body = false
  /\ (forall langs, get body (js "languages") = VArr langs ->
                    forallb (fun l => negb (nullish l)) langs = false)
  /\ VideoAnalyzer.output_language_select Page.plain
       (fst (VideoAnalyzer.loadLanguages VUndefined Page.plain
               (Page.serving body) VideoAnalyzer.initial []))
     = Throw TypeError.
Proof.
  cbv zeta. split; [reflexivity|]. split; [reflexivity|].
  split; [intros langs H; discriminate H|].
  apply (malformed_catalog_breaks_selector VUndefined Page.plain
           (Page.serving (VObj [(js "total_languages", VNum 0)]))
           VideoAnalyzer.initial []
           {| status := 200;
              data := VObj [(js "total_languages", VNum 0)] |}).
  - reflexivity.
  - reflexivity.
  - intros langs H. discriminate H.
Defined.

(* ===================================================================== *)
(** * Questions about the video *)
(* ===================================================================== *)

Lemma transcript_needs_result (v : value) :
  truthy (get v (js "transcript")) = true -> truthy v = true.
Proof. destruct v; cbn; try discriminate; reflexivity. Qed.

(** The requests [ask] adds to the log. *)
Lemma ask_log (env : value) (NumberToString : Z -> jsstring) (net : network)
    (viewer : AnalysisResults.state) (app : App.state)
    (log : list request) :
  snd (Page.ask env NumberToString net viewer app log) = log
  \/ (truthy (get (App.analysisData app) (js "transcript")) = true
      /\ snd (Page.ask env NumberToString net viewer app log)
         = log ++
           [ Api.api_request env POST (js "/api/advanced-query")
               (VObj [(js "transcript",
                       get (App.analysisData app) (js "transcript"));
                      (js "query", VStr (AnalysisResults.query viewer));
                      (js "output_language",
                       default (VStr (js "en")) (App.selectedLanguage app));
                      (js "query_language", VNull)]) ]).
Proof.
  unfold Page.ask, AnalysisResults.handleQuery, App.handleQuery.
  destruct (truthy (App.analysisData app)); [|now left].
  destruct (trim (AnalysisResults.query viewer)); [now left|].
  destruct (truthy (get (App.analysisData app) (js "transcript"))) eqn:Et;
    cbn [negb]; [|now left].
  right. split; [reflexivity|].
  rewrite queryTranscriptAdvanced_settled. cbn [default].
  destruct (net log _) as [r|e]; [|reflexivity].
  destruct (prop (data r) (js "response")); reflexivity.
Qed.

(** X10.  With a transcript on the page and a question that is not
    blank, asking issues exactly one request: a POST of the transcript,
    the question as typed, the page's language and a [null] query
    language to [/api/advanced-query].  The viewer then shows the
    [response] field of the answer; after any failure, and after an
    answer without a body, it shows the fixed apology instead, whatever
    the error said. *)
Theorem ask_posts_one_query (env : value) (NumberToString : Z -> jsstring)
    (net : network) (viewer : AnalysisResults.state) (app : App.state)
    (log : list request) :
  truthy (get (App.analysisData app) (js "transcript")) = true ->
  trim (AnalysisResults.query viewer) <> [] ->
  let req :=
    Api.api_request env POST (js "/api/advanced-query")
      (VObj [(js "transcript",
              get (App.analysisData app) (js "transcript"));
             (js "query", VStr (AnalysisResults.query viewer));
             (js "output_language",
              default (VStr (js "en")) (App.selectedLanguage app));
             (js "query_language", VNull)]) in
  snd (Page.ask env NumberToString net viewer app log) = log ++ [req]
  /\ AnalysisResults.queryResponse
       (fst (Page.ask env NumberToString net viewer app log))
     = match net log req with
       | Fulfilled r =>
           if nullish (data r) then VStr AnalysisResults.apology
           else get (data r) (js "response")
       | Rejected _ => VStr AnalysisResults.apology
       end.
Proof.
  intros Ht Hq. cbv zeta.
  unfold Page.ask, AnalysisResults.handleQuery, App.handleQuery.
  rewrite (transcript_needs_result _ Ht), Ht. cbn [negb].
  destruct (trim (AnalysisResults.query viewer)); [easy|].
  rewrite queryTranscriptAdvanced_settled. cbn [default].
  destruct (net log _) as [r|e]; [|split; reflexivity].
  rewrite prop_nullish. destruct (nullish (data r)); split; reflexivity.
Qed.

(** X11.  A question made of white space only is never sent: the button
    of the chat form is disabled, and the handler returns at once
    whatever [onQuery] is. *)
Theorem blank_question_is_not_sent
    (onQuery : value -> M Api.Error value) (viewer : AnalysisResults.state)
    (log : list request) :
  forallb is_space (AnalysisResults.query viewer) = true ->
  AnalysisResults.handleQuery onQuery viewer log = (viewer, log)
  /\ AnalysisResults.ask_disabled viewer = true.
Proof.
  intros H. unfold AnalysisResults.handleQuery, AnalysisResults.ask_disabled.
  rewrite (trim_blank _ H). split; [reflexivity|]. cbn. apply orb_true_r.
Qed.

Lemma blank_question_is_not_sent_spaces :
  let viewer := AnalysisResults.setQuery (js "   ") AnalysisResults.initial in
  forallb is_space (AnalysisResults.query viewer) = true
  /\ AnalysisResults.handleQuery
       (App.handleQuery VUndefined Page.plain Page.offline App.initial)
       viewer []
     = (viewer, [])
  /\ AnalysisResults.ask_disabled viewer = true.
Proof.
  cbv zeta. split; [reflexivity|].
  apply (blank_question_is_not_sent
           (App.handleQuery VUndefined Page.plain Page.offline App.initial)
           (AnalysisResults.setQuery (js "   ") AnalysisResults.initial) []).
  reflexivity.
Defined.

Lemma ask_posts_one_query_sample :
  let req :=
    Api.api_request VUndefined POST (js "/api/advanced-query")
      (VObj [(js "transcript",
              get (App.analysisData Page.analysed) (js "transcript"));
             (js "query", VStr (AnalysisResults.query Page.asking));
             (js "output_language",
              default (VStr (js "en")) (App.selectedLanguage Page.analysed));
             (js "query_language", VNull)]) in
  truthy (get (App.analysisData Page.analysed) (js "transcript")) = true
  /\ trim (AnalysisResults.query Page.asking) <> []
  /\ snd (Page.ask VUndefined Page.plain (Page.serving Page.sample_result)
            Page.asking Page.analysed []) = [] ++ [req]
  /\ AnalysisResults.queryResponse
       (fst (Page.ask VUndefined Page.plain (Page.serving Page.sample_result)
               Page.asking Page.analysed []))
     = match Page.serving Page.sample_result [] req with
       | Fulfilled r =>
           if nullish (data r) then VStr AnalysisResults.apology
           else get (data r) (js "response")
       | Rejected _ => VStr AnalysisResults.apology
       end.
Proof.
  cbv zeta. split; [reflexivity|]. split; [vm_compute; discriminate|].
  apply (ask_posts_one_query VUndefined Page.plain
           (Page.serving Page.sample_result) Page.asking Page.analysed []).
  - reflexivity.
  - vm_compute. discriminate.
Defined.

(* ===================================================================== *)
(** * Runs of the page *)
(* ===================================================================== *)

Section PageRuns.

Variable env : value.
Variable NumberToString : Z -> jsstring.
Variable net : network.

Import Page.

Lemma latest_language_snoc (log : list request) (r : request) :
  Page.latest_language (log ++ [r])
  = if Page.is_summary r then Some (Page.output_language_of r)
    else Page.latest_language log.
Proof.
  induction log as [|x log IH].
  - reflexivity.
  - change (latest_language ((x :: log) ++ [r]))
      with (match latest_language (log ++ [r]) with
            | Some l => Some l
            | None => if is_summary x then Some (output_language_of x)
                      else None
            end).
    rewrite IH. now destruct (is_summary r).
Qed.

Lemma split_snoc {A : Type} (l1 l2 log : list A) (q r : A) :
  l1 ++ q :: l2 = log ++ [r] ->
  (exists l2', l2 = l2' ++ [r] /\ log = l1 ++ q :: l2')
  \/ (l2 = [] /\ l1 = log /\ q = r).
Proof.
  destruct l2 as [|x l2] using rev_ind.
  - intros H. right. apply app_inj_tail in H as [-> ->]. easy.
  - intros H. left. exists l2.
    change (l1 ++ q :: l2 ++ [x]) with (l1 ++ (q :: l2) ++ [x]) in H.
    rewrite app_assoc in H. apply app_inj_tail in H as [<- ->]. easy.
Qed.

Lemma log_inv_plain (log : list request) (r : request) :
  log_inv log -> Page.is_query r = false -> log_inv (log ++ [r]).
Proof.
  intros H Hr l1 q l2 Hs Hq.
  destruct (split_snoc _ _ _ _ _ (eq_sym Hs))
    as [(l2' & _ & Hl) | (_ & _ & ->)].
  - exact (H l1 q l2' Hl Hq).
  - congruence.
Qed.

Lemma loadLanguages_log (st : VideoAnalyzer.state) (log : list request) :
  snd (VideoAnalyzer.loadLanguages env NumberToString net st log)
  = log ++ [Api.api_request env GET (js "/api/languages") VUndefined].
Proof.
  unfold VideoAnalyzer.loadLanguages, Api.getSupportedLanguages, try_catch,
    bind, Api.api_get, ret.
  rewrite api_call_settled. destruct (net log _) as [r|e]; [|reflexivity].
  destruct (prop (data r) (js "languages")); reflexivity.
Qed.

Lemma step_invariant (ev : Page.event) (pg : Page.page)
    (log : list request) :
  page_inv pg log -> log_inv log ->
  page_inv (fst (Page.step env NumberToString net ev pg log))
           (snd (Page.step env NumberToString net ev pg log))
  /\ log_inv (snd (Page.step env NumberToString net ev pg log)).
Proof.
  intros Hp Hl.
  assert (Hview : forall f, page_inv (Page.with_viewer f pg) log).
  { intros f. unfold Page.with_viewer.
    now destruct (truthy (App.analysisData (Page.app pg))). }
  destruct ev; cbn [Page.step];
    try (split; [apply Hp || apply Hview | exact Hl]).
  - (* Mount *)
    destruct (VideoAnalyzer.loadLanguages env NumberToString net
                (Page.form pg) log)
      as [f log'] eqn:E.
    pose proof (loadLanguages_log (Page.form pg) log) as Hlog.
    rewrite E in Hlog. cbn [snd fst] in *. subst log'. split.
    + unfold page_inv in *. rewrite latest_language_snoc. exact Hp.
    + now apply log_inv_plain.
  - (* Submit *)
    unfold VideoAnalyzer.handleSubmit.
    destruct (trim (VideoAnalyzer.url (Page.form pg))); [now split|].
    destruct (negb (VideoAnalyzer.validateYouTubeUrl
                      (VideoAnalyzer.url (Page.form pg)))); [now split|].
    rewrite handleAnalyzeVideo_settled. cbn [fst snd]. split.
    + unfold page_inv. rewrite latest_language_snoc. cbn [Page.app].
      destruct (net log _); cbn; split; reflexivity.
    + now apply log_inv_plain.
  - (* Ask *)
    destruct (Page.ask env NumberToString net (Page.viewer pg) (Page.app pg)
                log)
      as [v log'] eqn:E.
    pose proof (ask_log env NumberToString net (Page.viewer pg) (Page.app pg)
                  log)
      as Hlog.
    rewrite E in Hlog. cbn [snd fst] in *.
    destruct Hlog as [-> | [Ht ->]]; [now split|]. split.
    + unfold page_inv in *. rewrite latest_language_snoc. exact Hp.
    + intros l1 q l2 Hs Hq.
      destruct (split_snoc _ _ _ _ _ (eq_sym Hs))
        as [(l2' & _ & Hs') | (_ & -> & ->)].
      * exact (Hl l1 q l2' Hs' Hq).
      * unfold page_inv in Hp.
        destruct (Page.latest_language log) as [l|]; [|congruence].
        destruct Hp as [Hsel Hdef].
        replace (output_language_of _)
          with (default (VStr (js "en")) (App.selectedLanguage (app pg)))
          by reflexivity.
        rewrite Hsel, Hdef. reflexivity.
Qed.

Lemma run_invariant (evs : list Page.event) :
  forall (pg : Page.page) (log : list request),
    page_inv pg log -> log_inv log ->
    log_inv (snd (Page.run env NumberToString net evs pg log)).
Proof.
  induction evs as [|ev evs IH]; intros pg log Hp Hl; cbn [Page.run].
  - exact Hl.
  - destruct (step_invariant ev pg log Hp Hl) as [Hp' Hl'].
    destruct (Page.step env NumberToString net ev pg log) as [pg' log'].
    now apply IH.
Qed.

End PageRuns.

(** X12.  However the page is used, from its first render on, every
    question sent to [/api/advanced-query] comes after a request for an
    analysis, and asks for its answer in the output language of the
    latest analysis requested before it. *)
Theorem queries_follow_the_analysis_language (env : value)
    (NumberToString : Z -> jsstring) (net : network)
    (evs : list Page.event) (l1 l2 : list request) (q : request) :
  snd (Page.run env NumberToString net evs Page.start []) = l1 ++ q :: l2 ->
  Page.is_query q = true ->
  Page.latest_language l1 = Some (Page.output_language_of q).
Proof.
  intros Hrun Hq.
  refine (run_invariant env NumberToString net evs Page.start [] _ _
            l1 q l2 Hrun Hq).
  - reflexivity.
  - intros a b c H. now destruct a.
Qed.

Lemma queries_follow_the_analysis_language_sample :
  let net := Page.serving Page.sample_result in
  let evs :=
    [ Page.ChangeUrl (js "https://www.youtube.com/watch?v=dQw4w9WgXcQ");
      Page.SelectOutputLanguage (js "ko"); Page.Submit;
      Page.ChangeQuestion (js "Summarize the conclusion"); Page.Ask ] in
  let summary :=
    Api.api_request VUndefined POST (js "/api/advanced-summary")
      (VObj [(js "url",
              VStr (js "https://www.youtube.com/watch?v=dQw4w9WgXcQ"));
             (js "output_language", VStr (js "ko"));
             (js "auto_detect_video_language", VBool true);
             (js "video_language_hint", VNull)]) in
  let question :=
    Api.api_request VUndefined POST (js "/api/advanced-query")
      (VObj [(js "transcript", VStr (js "We're no strangers to love"));
             (js "query", VStr (js "Summarize the conclusion"));
             (js "output_language", VStr (js "ko"));
             (js "query_language", VNull)]) in
  snd (Page.run VUndefined Page.plain net evs Page.start [])
  = [summary] ++ question :: []
  /\ Page.is_query question = true
  /\ Page.latest_language [summary]
     = Some (Page.output_language_of question).
Proof.
  cbv zeta. split; [vm_compute; reflexivity|]. split; [reflexivity|].
  apply (queries_follow_the_analysis_language VUndefined Page.plain
           (Page.serving Page.sample_result)
           [ Page.ChangeUrl (js "https://www.youtube.com/watch?v=dQw4w9WgXcQ");
             Page.SelectOutputLanguage (js "ko"); Page.Submit;
             Page.ChangeQuestion (js "Summarize the conclusion"); Page.Ask ]
           _ [] _).
  - vm_compute. reflexivity.
  - reflexivity.
Defined.

(* ===================================================================== *)
(** * The tab components and the older front-end *)
(* ===================================================================== *)

Lemma triggers_in_a_list_raise_aux (ToString : Tabs.pvalue -> jsstring)
    (cloned own : Tabs.props) (items : list (jsstring * jsstring)) :
  Tabs.clicks
    (Tabs.render ToString cloned
       (Tabs.Element Tabs.TabsListK own
          (map (fun it => Tabs.trigger (fst it) (snd it)) items)))
  = map (fun _ => Tabs.Fails TypeError) items.
Proof.
  cbn [Tabs.render Tabs.clicks]. rewrite map_map.
  induction items as [|[v l] items IH]; [reflexivity|].
  cbn [map flat_map]. rewrite IH. reflexivity.
Qed.

(** X13.  A trigger that sits inside a [TabsList] gets no handler: the
    container hands its state and its setter to its own children only,
    and the list passes nothing on.  A click on such a trigger raises a
    TypeError, whatever the state of the container. *)
Theorem triggers_in_a_list_raise (ToString : Tabs.pvalue -> jsstring)
    (cloned own : Tabs.props) (items : list (jsstring * jsstring)) :
  Tabs.clicks
    (Tabs.render ToString cloned
       (Tabs.Element Tabs.TabsListK own
          (map (fun it => Tabs.trigger (fst it) (snd it)) items)))
  = map (fun _ => Tabs.Fails TypeError) items.
Proof. apply triggers_in_a_list_raise_aux. Qed.

(** X14.  A trigger that is a child of [Tabs] itself switches the
    container to its value when clicked, and a [TabsContent] there shows
    exactly while the container is at its value. *)
Theorem direct_triggers_switch (ToString : Tabs.pvalue -> jsstring)
    (active : Tabs.pvalue) (own : Tabs.props)
    (items : list (jsstring * jsstring)) :
  Tabs.clicks
    (Tabs.Tabs ToString active own
       (map (fun it => Tabs.trigger (fst it) (snd it)) items))
  = map (fun it => Tabs.Calls Tabs.setActiveTab (Tabs.Str (fst it))) items
  /\ forall (value : jsstring) (children : list Tabs.element),
       Tabs.render ToString (Tabs.injected active)
         (Tabs.content value children) <> Tabs.Nothing
       <-> active = Tabs.Str value.
Proof.
  split.
  - unfold Tabs.Tabs. cbn [Tabs.clicks]. rewrite map_map.
    induction items as [|[v l] items IH]; [reflexivity|].
    cbn [map flat_map]. rewrite IH. reflexivity.
  - intros value children. unfold Tabs.content.
    cbn [Tabs.render Tabs.injected app Tabs.pget].
    replace (str_eqb (js "activeTab") (js "value")) with false by reflexivity.
    replace (str_eqb (js "onValueChange") (js "value")) with false
      by reflexivity.
    replace (str_eqb (js "value") (js "value")) with true by reflexivity.
    replace (str_eqb (js "activeTab") (js "activeTab")) with true
      by reflexivity.
    destruct active as [|s|f]; cbn [Tabs.strict_eq negb].
    + split; [intros H; now destruct H | discriminate].
    + destruct (str_eqb value s) eqn:E; cbn [negb].
      * apply str_eqb_eq in E. subst s. split; [reflexivity | discriminate].
      * split; [intros H; now destruct H|].
        intros H. injection H as ->. now rewrite str_eqb_refl in E.
    + split; [intros H; now destruct H | discriminate].
Qed.

Section LegacyFacts.

Import LegacyApp.

Variable net : network.

(** The state and the log after [handleSubmit], by how the call
    settled. *)
Lemma handleSubmit_settled (st : state) (log : list request) :
  inputUrl st <> [] ->
  handleSubmit net st log
  = (match net log (summary_request st) with
     | Fulfilled r =>
         if nullish (data r)
         then {| inputUrl := inputUrl st; responseText := responseText st;
                 transcript := transcript st; loading := false;
                 activeAgent := activeAgent st; userQuery := userQuery st;
                 queryResponse := queryResponse st |}
         else {| inputUrl := inputUrl st;
                 responseText :=
                   or_else (get (data r) (js "summary")) (VStr []);
                 transcript :=
                   or_else (get (data r) (js "transcript")) (VStr []);
                 loading := false; activeAgent := activeAgent st;
                 userQuery := userQuery st;
                 queryResponse := queryResponse st |}
     | Rejected _ =>
         {| inputUrl := inputUrl st; responseText := responseText st;
            transcript := transcript st; loading := false;
            activeAgent := activeAgent st; userQuery := userQuery st;
            queryResponse := queryResponse st |}
     end, log ++ [summary_request st]).
Proof.
  intros Hne. unfold handleSubmit, send.
  destruct (inputUrl st) as [|c u] eqn:Eu; [easy|].
  unfold summary_request. rewrite Eu.
  destruct (net log _) as [r|e]; [|reflexivity].
  rewrite !prop_nullish. destruct (nullish (data r)); reflexivity.
Qed.

Lemma handleQuery_log (st : state) (log : list request) :
  snd (handleQuery net st log)
  = if negb (truthy (VStr (userQuery st))) || negb (truthy (transcript st))
    then log else log ++ [query_request st].
Proof.
  unfold handleQuery, send.
  destruct (_ || _); [reflexivity|].
  unfold query_request.
  destruct (net log _) as [r|e]; [|reflexivity].
  destruct (prop (data r) (js "response")); reflexivity.
Qed.

Lemma handleQuery_agent (st : state) (log : list request) :
  activeAgent (fst (handleQuery net st log)) = activeAgent st.
Proof.
  unfold handleQuery, send.
  destruct (_ || _); [reflexivity|].
  destruct (net log _) as [r|e]; [|reflexivity].
  destruct (prop (data r) (js "response")); reflexivity.
Qed.

Lemma handleSubmit_agent (st : state) (log : list request) :
  activeAgent (fst (handleSubmit net st log)) = activeAgent st.
Proof.
  destruct (inputUrl st) as [|c u] eqn:Eu.
  - unfold handleSubmit. now rewrite Eu.
  - rewrite handleSubmit_settled by (rewrite Eu; discriminate).
    destruct (net log _) as [r|e]; [|reflexivity].
    destruct (nullish (data r)); reflexivity.
Qed.

Lemma handleSubmit_log (st : state) (log : list request) :
  snd (handleSubmit net st log)
  = match inputUrl st with
    | [] => log
    | _ => log ++ [summary_request st]
    end.
Proof.
  destruct (inputUrl st) as [|c u] eqn:Eu.
  - unfold handleSubmit. now rewrite Eu.
  - rewrite handleSubmit_settled by (rewrite Eu; discriminate). reflexivity.
Qed.

(** None of the three tab buttons has a handler, whatever the page. *)
Lemma tabs_view_clicks (ToString : Tabs.pvalue -> jsstring) (pg : page) :
  Tabs.clicks (tabs_view ToString pg)
  = [Tabs.Fails TypeError; Tabs.Fails TypeError; Tabs.Fails TypeError].
Proof.
  unfold tabs_view, Tabs.Tabs, agent_tabs, Tabs.content.
  cbn [map Tabs.clicks flat_map].
  change (Tabs.render ToString (Tabs.injected (shownTab pg))
            (Tabs.Element Tabs.TabsListK []
               [Tabs.trigger (js "agent1") (js "Gemini");
                Tabs.trigger (js "agent2") (js "GPT-4");
                Tabs.trigger (js "agent3") (js "Claude")]))
    with (Tabs.render ToString (Tabs.injected (shownTab pg))
            (Tabs.Element Tabs.TabsListK []
               (map (fun it => Tabs.trigger (fst it) (snd it))
                  [(js "agent1", js "Gemini"); (js "agent2", js "GPT-4");
                   (js "agent3", js "Claude")]))).
  rewrite triggers_in_a_list_raise_aux.
  assert (Hc : forall v kids,
             Tabs.clicks
               (Tabs.render ToString (Tabs.injected (shownTab pg))
                  (Tabs.Element Tabs.TabsContentK [(js "value", Tabs.Str v)]
                     [Tabs.Element (Tabs.HostK (js "p"))
                        [(js "className",
                          Tabs.Str (js "text-sm text-gray-300"))]
                        [Tabs.TextChild kids]])) = []).
  { intros v kids. cbn [Tabs.render]. destruct (negb _); reflexivity. }
  rewrite !Hc. reflexivity.
Qed.

Lemma click_tab_nothing (ToString : Tabs.pvalue -> jsstring) (i : nat)
    (pg : page) :
  click_tab ToString i pg = pg.
Proof.
  unfold click_tab. rewrite tabs_view_clicks.
  destruct i as [|[|[|[|i]]]]; reflexivity.
Qed.

End LegacyFacts.

(** X15.  In the older front-end a summary call that fails leaves the
    summary and the transcript of the previous video on the page; so
    does an answer without a body.  An answer with a body replaces both,
    a missing field by the empty text.  Either way exactly one request
    went out. *)
Theorem legacy_summary_keeps_or_replaces (net : network)
    (st : LegacyApp.state) (log : list request) :
  LegacyApp.inputUrl st <> [] ->
  let after := fst (LegacyApp.handleSubmit net st log) in
  snd (LegacyApp.handleSubmit net st log)
  = log ++ [LegacyApp.summary_request st]
  /\ LegacyApp.loading after = false
  /\ match net log (LegacyApp.summary_request st) with
     | Fulfilled r =>
         if nullish (data r)
         then LegacyApp.responseText after = LegacyApp.responseText st
              /\ LegacyApp.transcript after = LegacyApp.transcript st
         else LegacyApp.responseText after
              = or_else (get (data r) (js "summary")) (VStr [])
              /\ LegacyApp.transcript after
                 = or_else (get (data r) (js "transcript")) (VStr [])
     | Rejected _ =>
         LegacyApp.responseText after = LegacyApp.responseText st
         /\ LegacyApp.transcript after = LegacyApp.transcript st
     end.
Proof.
  intros Hne. cbv zeta. rewrite (handleSubmit_settled net st log Hne).
  cbn [fst snd]. split; [reflexivity|].
  destruct (net log _) as [r|e]; [|now repeat split].
  destruct (nullish (data r)); now repeat split.
Qed.

Lemma legacy_summary_keeps_or_replaces_offline :
  LegacyApp.inputUrl Page.stray_legacy <> []
  /\ snd (LegacyApp.handleSubmit Page.offline Page.stray_legacy [])
     = [] ++ [LegacyApp.summary_request Page.stray_legacy]
  /\ LegacyApp.loading
       (fst (LegacyApp.handleSubmit Page.offline Page.stray_legacy []))
     = false
  /\ match Page.offline [] (LegacyApp.summary_request Page.stray_legacy) with
     | Fulfilled r =>
         if nullish (data r)
         then LegacyApp.responseText
                (fst (LegacyApp.handleSubmit Page.offline Page.stray_legacy []))
              = LegacyApp.responseText Page.stray_legacy
              /\ LegacyApp.transcript
                   (fst (LegacyApp.handleSubmit Page.offline
                           Page.stray_legacy []))
                 = LegacyApp.transcript Page.stray_legacy
         else LegacyApp.responseText
                (fst (LegacyApp.handleSubmit Page.offline Page.stray_legacy []))
              = or_else (get (data r) (js "summary")) (VStr [])
              /\ LegacyApp.transcript
                   (fst (LegacyApp.handleSubmit Page.offline
                           Page.stray_legacy []))
                 = or_else (get (data r) (js "transcript")) (VStr [])
     | Rejected _ =>
         LegacyApp.responseText
           (fst (LegacyApp.handleSubmit Page.offline Page.stray_legacy []))
         = LegacyApp.responseText Page.stray_legacy
         /\ LegacyApp.transcript
              (fst (LegacyApp.handleSubmit Page.offline Page.stray_legacy []))
            = LegacyApp.transcript Page.stray_legacy
     end.
Proof.
  split; [vm_compute; discriminate|].
  apply (legacy_summary_keeps_or_replaces Page.offline Page.stray_legacy []).
  vm_compute. discriminate.
Defined.

(** X16.  So, in the older front-end, a question asked after a failed
    summary is put to the transcript of the video before: the two
    handlers in a row post the new address and then the old
    transcript. *)
Theorem legacy_question_after_failed_summary
    (ToString : Tabs.pvalue -> jsstring) (net : network)
    (pg : LegacyApp.page) (log : list request) (e : axios_error) :
  LegacyApp.inputUrl (LegacyApp.app pg) <> [] ->
  LegacyApp.userQuery (LegacyApp.app pg) <> [] ->
  truthy (LegacyApp.transcript (LegacyApp.app pg)) = true ->
  net log (LegacyApp.summary_request (LegacyApp.app pg)) = Rejected e ->
  snd (LegacyApp.run ToString net [LegacyApp.Summarize; LegacyApp.AskAI]
         pg log)
  = log ++ [LegacyApp.summary_request (LegacyApp.app pg);
            LegacyApp.query_request (LegacyApp.app pg)].
Proof.
  intros Hu Hq Ht Hnet. cbn [LegacyApp.run LegacyApp.step].
  rewrite (handleSubmit_settled net _ log Hu), Hnet.
  cbn [LegacyApp.app].
  match goal with
  | |- context [LegacyApp.handleQuery net ?s ?l] =>
      pose proof (handleQuery_log net s l) as Hlog;
      destruct (LegacyApp.handleQuery net s l) as [st' log']
  end.
  cbn [snd LegacyApp.userQuery LegacyApp.transcript] in *.
  rewrite Hlog, Ht.
  destruct (LegacyApp.userQuery (LegacyApp.app pg)) eqn:Eq; [easy|].
  cbn [truthy negb orb]. rewrite <- app_assoc. cbn [app].
  unfold LegacyApp.query_request. cbn [LegacyApp.transcript
    LegacyApp.userQuery]. now rewrite Eq.
Qed.

Section LegacyRuns.

Import LegacyApp.

Variable ToString : Tabs.pvalue -> jsstring.
Variable net : network.

Lemma step_agent (ev : event) (pg : page) (log : list request) :
  activeAgent (app (fst (step ToString net ev pg log)))
  = activeAgent (app pg)
  /\ shownTab (fst (step ToString net ev pg log)) = shownTab pg
  /\ (snd (step ToString net ev pg log) = log
      \/ snd (step ToString net ev pg log)
         = log ++ [summary_request (app pg)]
      \/ snd (step ToString net ev pg log)
         = log ++ [query_request (app pg)]).
Proof.
  destruct ev; cbn [step].
  - repeat split. now left.
  - repeat split. now left.
  - pose proof (handleSubmit_agent net (app pg) log) as Ha.
    pose proof (handleSubmit_log net (app pg) log) as Hl.
    destruct (handleSubmit net (app pg) log) as [st' log'].
    cbn [fst snd app shownTab] in *. repeat split; [exact Ha|].
    rewrite Hl. destruct (inputUrl (app pg)); [now left | right; now left].
  - pose proof (handleQuery_agent net (app pg) log) as Ha.
    pose proof (handleQuery_log net (app pg) log) as Hl.
    destruct (handleQuery net (app pg) log) as [st' log'].
    cbn [fst snd app shownTab] in *. repeat split; [exact Ha|].
    rewrite Hl. destruct (_ || _); [now left | right; now right].
  - rewrite click_tab_nothing. repeat split. now left.
Qed.

Lemma run_agent (evs : list event) :
  forall (pg : page) (log : list request),
    activeAgent (app pg) = js "agent1" ->
    (forall r, In r log ->
               req_url r = js "http://localhost:8000/api/summary" ->
               get (req_data r) (js "agent") = VStr (js "gemini")) ->
    activeAgent (app (fst (run ToString net evs pg log))) = js "agent1"
    /\ shownTab (fst (run ToString net evs pg log)) = shownTab pg
    /\ forall r, In r (snd (run ToString net evs pg log)) ->
                 req_url r = js "http://localhost:8000/api/summary" ->
                 get (req_data r) (js "agent") = VStr (js "gemini").
Proof.
  induction evs as [|ev evs IH]; intros pg log Ha Hl; cbn [run].
  - now repeat split.
  - destruct (step_agent ev pg log) as (Ha' & Hs' & Hlog).
    destruct (step ToString net ev pg log) as [pg' log'].
    cbn [fst snd] in *.
    destruct (IH pg' log') as (H1 & H2 & H3).
    + congruence.
    + intros r Hin Hurl.
      destruct Hlog as [-> | [-> | ->]].
      * now apply Hl.
      * apply in_app_or in Hin as [Hin | [<- | []]]; [now apply Hl|].
        unfold summary_request. cbn [req_data bare]. now rewrite Ha.
      * apply in_app_or in Hin as [Hin | [<- | []]]; [now apply Hl|].
        discriminate Hurl.
    + repeat split; [exact H1 | congruence | exact H3].
Qed.

End LegacyRuns.

(** X17.  However the older page is used, the agent never changes: a
    click on a tab raises and changes nothing, the container stays on
    its first tab, and every request for a summary names the agent
    [gemini]. *)
Theorem legacy_agent_is_always_gemini (ToString : Tabs.pvalue -> jsstring)
    (net : network) (evs : list LegacyApp.event) :
  let after :=
    LegacyApp.run ToString net evs LegacyApp.start [] in
  LegacyApp.activeAgent (LegacyApp.app (fst after)) = js "agent1"
  /\ LegacyApp.shownTab (fst after) = Tabs.Str (js "agent1")
  /\ (forall i, LegacyApp.click_tab ToString i (fst after) = fst after)
  /\ forall r, In r (snd after) ->
               req_url r = js "http://localhost:8000/api/summary" ->
               get (req_data r) (js "agent") = VStr (js "gemini").
Proof.
  cbv zeta.
  destruct (run_agent ToString net evs LegacyApp.start [])
    as (H1 & H2 & H3); [reflexivity | intros r [] |].
  split; [exact H1|]. split; [exact H2|].
  split; [intros i; apply click_tab_nothing | exact H3].
Qed.

Lemma legacy_question_after_failed_summary_sample :
  LegacyApp.inputUrl (LegacyApp.app Page.legacy_mid) <> []
  /\ LegacyApp.userQuery (LegacyApp.app Page.legacy_mid) <> []
  /\ truthy (LegacyApp.transcript (LegacyApp.app Page.legacy_mid)) = true
  /\ Page.offline []
       (LegacyApp.summary_request (LegacyApp.app Page.legacy_mid))
     = Rejected Page.unreachable
  /\ snd (LegacyApp.run (fun _ => []) Page.offline
            [LegacyApp.Summarize; LegacyApp.AskAI] Page.legacy_mid [])
     = [] ++ [LegacyApp.summary_request (LegacyApp.app Page.legacy_mid);
              LegacyApp.query_request (LegacyApp.app Page.legacy_mid)].
Proof.
  split; [vm_compute; discriminate|]. split; [vm_compute; discriminate|].
  split; [reflexivity|]. split; [reflexivity|].
  apply (legacy_question_after_failed_summary (fun _ => []) Page.offline
           Page.legacy_mid [] Page.unreachable).
  - vm_compute. discriminate.
  - vm_compute. discriminate.
  - reflexivity.
  - reflexivity.
Defined.

(* ===================================================================== *)
(** * More about the transcript search and the badges *)
(* ===================================================================== *)

Section SearchFacts.

Import Regex.

Variable up : code_unit -> code_unit.

Lemma mark_occurrences_none (term : jsstring) :
  forall text : jsstring,
    (forall before after, text = before ++ after ->
                          AnalysisResults.occurs_here up term after = false) ->
    AnalysisResults.mark_occurrences up term text 0 = text.
Proof.
  induction text as [|c text IH]; intros H;
    cbn [AnalysisResults.mark_occurrences].
  - now rewrite (H [] [] eq_refl).
  - rewrite (H [] (c :: text) eq_refl). f_equal. apply IH.
    intros before after ->. exact (H (c :: before) after eq_refl).
Qed.

Lemma ascii_upper_canonical (c : code_unit) :
  (c <? 128)%N = true ->
  Canonicalize true up (ascii_upper c) = Canonicalize true up c.
Proof.
  intros Hc. apply N.ltb_lt in Hc. unfold Canonicalize, ascii_upper.
  destruct ((97 <=? c) && (c <=? 122))%N eqn:E.
  - apply andb_true_iff in E as [H1 H2].
    apply N.leb_le in H1. apply N.leb_le in H2.
    replace (c - 32 <? 128)%N with true by (symmetry; apply N.ltb_lt; lia).
    replace (c <? 128)%N with true by (symmetry; apply N.ltb_lt; lia).
    replace ((97 <=? c - 32) && (c - 32 <=? 122))%N with false; [reflexivity|].
    symmetry. apply andb_false_iff. left. apply N.leb_gt. lia.
  - now rewrite E.
Qed.

Lemma ascii_upper_plain (c : code_unit) :
  is_syntax_char c = false -> is_syntax_char (ascii_upper c) = false.
Proof.
  intros H. unfold ascii_upper.
  destruct ((97 <=? c) && (c <=? 122))%N eqn:E; [|exact H].
  apply andb_true_iff in E as [H1 H2].
  apply N.leb_le in H1. apply N.leb_le in H2.
  unfold is_syntax_char, c_caret, c_dollar, c_bslash, c_dot, c_star, c_plus,
    c_quest, c_lparen, c_rparen, c_lbrack, c_rbrack, c_lbrace, c_rbrace,
    c_bar.
  cbn [existsb]. rewrite !orb_false_iff.
  repeat split; try reflexivity; apply N.eqb_neq; lia.
Qed.

Lemma occurs_here_upper (term : jsstring) :
  forallb (fun c => (c <? 128)%N) term = true ->
  forall s,
    AnalysisResults.occurs_here up (map ascii_upper term) s
    = AnalysisResults.occurs_here up term s.
Proof.
  induction term as [|c term IH]; intros H s; [reflexivity|].
  cbn [forallb] in H. apply andb_true_iff in H as [Hc H].
  cbn [map AnalysisResults.occurs_here]. destruct s as [|d s]; [reflexivity|].
  unfold same_char. rewrite (ascii_upper_canonical c Hc), (IH H). reflexivity.
Qed.

Lemma mark_occurrences_ext (term term' : jsstring) :
  List.length term' = List.length term ->
  (forall s, AnalysisResults.occurs_here up term' s
             = AnalysisResults.occurs_here up term s) ->
  forall s skip,
    AnalysisResults.mark_occurrences up term' s skip
    = AnalysisResults.mark_occurrences up term s skip.
Proof.
  intros Hlen Hocc s. induction s as [|c s IH]; intros skip;
    destruct skip as [|skip]; cbn [AnalysisResults.mark_occurrences];
    rewrite ?Hocc, ?Hlen, ?IH; reflexivity.
Qed.

Lemma plain_upper (term : jsstring) :
  plain term = true -> plain (map ascii_upper term) = true.
Proof.
  unfold plain. induction term as [|c term IH]; [reflexivity|].
  cbn [map forallb]. rewrite !andb_true_iff, !negb_true_iff.
  intros [Hc H]. split; [now apply ascii_upper_plain | now apply IH].
Qed.

End SearchFacts.

(** X18.  For a search text that is not empty and holds no syntax
    character of regular expressions, the transcript tab wraps each
    occurrence of the text, whatever the letter case, in the mark, the
    leftmost first and no two overlapping, and copies everything else
    unchanged. *)
Theorem highlightSearchTerm_marks_plain_term (up : code_unit -> code_unit)
    (transcript term : jsstring) :
  term <> [] ->
  Regex.plain term = true ->
  AnalysisResults.highlightSearchTerm up (VStr transcript) term
  = AnalysisResults.Rendered
      (VStr (AnalysisResults.mark_occurrences up term transcript 0)).
Proof. apply highlightSearchTerm_plain. Qed.

Lemma highlightSearchTerm_marks_plain_term_hello :
  js "hello" <> []
  /\ Regex.plain (js "hello") = true
  /\ AnalysisResults.highlightSearchTerm (fun c => c)
       (VStr (js "Hello, hello")) (js "hello")
     = AnalysisResults.Rendered
         (VStr (AnalysisResults.mark_occurrences (fun c => c) (js "hello")
                  (js "Hello, hello") 0)).
Proof.
  split; [discriminate|]. split; [reflexivity|].
  apply (highlightSearchTerm_marks_plain_term (fun c => c)
           (js "Hello, hello") (js "hello")).
  - discriminate.
  - reflexivity.
Defined.

(** X19.  When such a search text occurs nowhere in the transcript, the
    tab shows the transcript exactly as it is. *)
Theorem highlightSearchTerm_without_hits (up : code_unit -> code_unit)
    (transcript term : jsstring) :
  term <> [] ->
  Regex.plain term = true ->
  (forall before after,
      transcript = before ++ after ->
      AnalysisResults.occurs_here up term after = false) ->
  AnalysisResults.highlightSearchTerm up (VStr transcript) term
  = AnalysisResults.Rendered (VStr transcript).
Proof.
  intros Hne Hp Hnone.
  rewrite (highlightSearchTerm_plain up transcript term Hne Hp).
  now rewrite (mark_occurrences_none up term transcript Hnone).
Qed.

Lemma highlightSearchTerm_without_hits_sample :
  js "x" <> []
  /\ Regex.plain (js "x") = true
  /\ AnalysisResults.highlightSearchTerm (fun c => c) (VStr (js "Hi"))
       (js "x")
     = AnalysisResults.Rendered (VStr (js "Hi")).
Proof.
  split; [discriminate|]. split; [reflexivity|].
  apply (highlightSearchTerm_without_hits (fun c => c) (js "Hi") (js "x")).
  - discriminate.
  - reflexivity.
  - intros before after H.
    destruct before as [|a [|b [|c before]]]; cbn in H.
    + subst after. reflexivity.
    + injection H as _ <-. reflexivity.
    + injection H as _ _ <-. reflexivity.
    + injection H as _ _ H. now destruct before.
Defined.

(** X20.  The search does not tell upper case from lower case in the
    search text either: for an ASCII text without syntax characters,
    typing it in capitals gives the same markup. *)
Theorem highlightSearchTerm_ignores_case_of_term
    (up : code_unit -> code_unit) (transcript term : jsstring) :
  term <> [] ->
  Regex.plain term = true ->
  forallb (fun c => (c <? 128)%N) term = true ->
  AnalysisResults.highlightSearchTerm up (VStr transcript)
    (map Regex.ascii_upper term)
  = AnalysisResults.highlightSearchTerm up (VStr transcript) term.
Proof.
  intros Hne Hp Hascii.
  rewrite (highlightSearchTerm_plain up transcript term Hne Hp).
  rewrite (highlightSearchTerm_plain up transcript
             (map Regex.ascii_upper term)).
  - rewrite (mark_occurrences_ext up term (map Regex.ascii_upper term));
      [reflexivity | apply length_map | now apply occurs_here_upper].
  - destruct term; [easy | discriminate].
  - now apply plain_upper.
Qed.

Lemma highlightSearchTerm_ignores_case_of_term_hello :
  js "hello" <> []
  /\ Regex.plain (js "hello") = true
  /\ forallb (fun c => (c <? 128)%N) (js "hello") = true
  /\ AnalysisResults.highlightSearchTerm (fun c => c)
       (VStr (js "Hello, hello")) (map Regex.ascii_upper (js "hello"))
     = AnalysisResults.highlightSearchTerm (fun c => c)
         (VStr (js "Hello, hello")) (js "hello").
Proof.
  split; [discriminate|]. split; [reflexivity|]. split; [reflexivity|].
  apply (highlightSearchTerm_ignores_case_of_term (fun c => c)
           (js "Hello, hello") (js "hello")).
  - discriminate.
  - reflexivity.
  - reflexivity.
Defined.

(** X21.  The colour and the face of the sentiment badge always agree.
    For a label that is a string both follow its lower-case form: green
    and the smile for positive, red and the sad face for negative, gray
    and the neutral face for anything else.  For [null] and [undefined]
    they are gray and the neutral face.  For any other value, which has
    no [toLowerCase], both raise a TypeError. *)
Theorem sentiment_badge_is_consistent (toLowerCase : jsstring -> jsstring)
    (sentiment : value) :
  let colour := AnalysisResults.getSentimentColor toLowerCase sentiment in
  let face := AnalysisResults.getSentimentEmoji toLowerCase sentiment in
  match sentiment with
  | VUndefined | VNull =>
      colour = Ok (js "text-gray-600 bg-gray-100")
      /\ face = Ok AnalysisResults.emoji_neutral
  | VStr s =>
      (toLowerCase s = js "positive"
       /\ colour = Ok (js "text-green-600 bg-green-100")
       /\ face = Ok AnalysisResults.emoji_smile)
      \/ (toLowerCase s = js "negative"
          /\ colour = Ok (js "text-red-600 bg-red-100")
          /\ face = Ok AnalysisResults.emoji_sad)
      \/ (toLowerCase s <> js "positive"
          /\ toLowerCase s <> js "negative"
          /\ colour = Ok (js "text-gray-600 bg-gray-100")
          /\ face = Ok AnalysisResults.emoji_neutral)
  | _ => colour = Throw TypeError /\ face = Throw TypeError
  end.
Proof.
  cbv zeta.
  unfold AnalysisResults.getSentimentColor, AnalysisResults.getSentimentEmoji.
  destruct sentiment as [| | | |s| |]; cbn [AnalysisResults.lower];
    try (split; reflexivity).
  cbn [strict_eq_str].
  destruct (str_eqb (toLowerCase s) (js "positive")) eqn:Ep.
  - left. apply str_eqb_eq in Ep. now repeat split.
  - destruct (str_eqb (toLowerCase s) (js "negative")) eqn:En.
    + right. left. apply str_eqb_eq in En. now repeat split.
    + right. right. repeat split; try reflexivity;
        intros H; apply str_eqb_eq in H; congruence.
Qed.

(* ===================================================================== *)
(** * The banner and the result of the page *)
(* ===================================================================== *)

Section BannerFacts.

Variable env : value.
Variable NumberToString : Z -> jsstring.
Variable net : network.

Lemma handleAnalyzeVideo_shows (url outputLanguage videoLanguageHint : value)
    (st : App.state) (log : list request) :
  let after :=
    fst (App.handleAnalyzeVideo env NumberToString net
           url outputLanguage videoLanguageHint st log) in
  App.loading after = false
  /\ truthy (App.error after) && truthy (App.analysisData after) = false.
Proof.
  cbv zeta. rewrite handleAnalyzeVideo_settled. cbn [fst].
  destruct (net log _); cbn [App.loading App.error App.analysisData truthy];
    split; try reflexivity. apply andb_false_r.
Qed.

Lemma step_shows (ev : Page.event) (pg : Page.page) (log : list request) :
  App.loading (Page.app pg) = false
  /\ truthy (App.error (Page.app pg))
     && truthy (App.analysisData (Page.app pg)) = false ->
  let pg' := fst (Page.step env NumberToString net ev pg log) in
  App.loading (Page.app pg') = false
  /\ truthy (App.error (Page.app pg'))
     && truthy (App.analysisData (Page.app pg')) = false.
Proof.
  intros H. cbv zeta.
  assert (Hview : forall f, Page.app (Page.with_viewer f pg) = Page.app pg).
  { intros f. unfold Page.with_viewer.
    now destruct (truthy (App.analysisData (Page.app pg))). }
  destruct ev; cbn [Page.step fst Page.with_form Page.app];
    rewrite ?Hview; try exact H.
  - (* Mount *)
    now destruct (VideoAnalyzer.loadLanguages env NumberToString net _ log).
  - (* Submit *)
    unfold VideoAnalyzer.handleSubmit.
    destruct (trim (VideoAnalyzer.url (Page.form pg))); [exact H|].
    destruct (negb (VideoAnalyzer.validateYouTubeUrl
                      (VideoAnalyzer.url (Page.form pg)))); [exact H|].
    match goal with
    | |- context [App.handleAnalyzeVideo _ _ _ ?u ?l ?h ?s ?lg] =>
        pose proof (handleAnalyzeVideo_shows u l h s lg) as Hs;
        cbv zeta in Hs;
        destruct (App.handleAnalyzeVideo env NumberToString net u l h s lg)
    end.
    exact Hs.
  - (* Ask *)
    now destruct (Page.ask env NumberToString net (Page.viewer pg)
                    (Page.app pg) log).
Qed.

Lemma run_shows (evs : list Page.event) :
  forall (pg : Page.page) (log : list request),
    App.loading (Page.app pg) = false
    /\ truthy (App.error (Page.app pg))
       && truthy (App.analysisData (Page.app pg)) = false ->
    let pg' := fst (Page.run env NumberToString net evs pg log) in
    App.loading (Page.app pg') = false
    /\ truthy (App.error (Page.app pg'))
       && truthy (App.analysisData (Page.app pg')) = false.
Proof.
  induction evs as [|ev evs IH]; intros pg log H; cbn [Page.run].
  - exact H.
  - pose proof (step_shows ev pg log H) as H'. cbv zeta in H'.
    destruct (Page.step env NumberToString net ev pg log) as [pg' log'].
    now apply IH.
Qed.

End BannerFacts.

(** X22.  The fallback text of the analysis handler, Failed to analyze
    video, is never what the page shows.  After a submission the error is
    null, or the message of one of the three kinds which the interceptor
    of the API module writes, or the text of the TypeError raised while
    the interceptor put the server's detail into its message; and none of
    these is the fallback text. *)
Theorem analysis_fallback_text_is_never_shown (env : value)
    (NumberToString : Z -> jsstring) (net : network)
    (url outputLanguage videoLanguageHint : value) (st : App.state)
    (log : list request) :
  let shown :=
    App.error (fst (App.handleAnalyzeVideo env NumberToString net
                      url outputLanguage videoLanguageHint st log)) in
  (shown = VNull
   \/ (exists kind, shown = VStr (Api.describe kind))
   \/ shown = VStr cannot_convert)
  /\ (forall kind, Api.describe kind <> js "Failed to analyze video")
  /\ cannot_convert <> js "Failed to analyze video".
Proof.
  cbv zeta. split; [|split].
  - rewrite handleAnalyzeVideo_settled. cbn [fst].
    destruct (net log _) as [r|e]; cbn [App.error]; [now left|]. right.
    unfold Api.on_rejected. destruct (err_response e) as [resp|].
    + destruct (Api.template NumberToString (Api.server_message e resp))
        as [text|]; [left | now right].
      now exists (Api.ApiError (status resp) text).
    + left. destruct (err_request e);
        [now exists Api.NetworkError | now eexists (Api.RequestError _)].
  - intros kind H. destruct kind; discriminate H.
  - discriminate.
Qed.

(** X23.  However the page is used, once an event is handled it is not
    loading, and it never shows the error banner and a result together. *)
Theorem banner_and_result_exclude_each_other (env : value)
    (NumberToString : Z -> jsstring) (net : network)
    (evs : list Page.event) :
  let pg := fst (Page.run env NumberToString net evs Page.start []) in
  App.loading (Page.app pg) = false
  /\ truthy (App.error (Page.app pg))
     && truthy (App.analysisData (Page.app pg)) = false.
Proof. apply run_shows. split; reflexivity. Qed.
